(** * Inferno: the DOM property reconciler ([packages/inferno/src/DOM/props.ts])

    A shallow embedding of [isAttrAnEvent], [createLinkEvent], [patchEvent],
    [patchStyle], [removeProp], [patchProp] and [mountProps], together with
    the properties of the reconciler that the specification states about
    them and further properties read off the code.

    Modelling choices, in one place:
    - JavaScript values are the inductive [value]; objects and functions carry
      a reference ([ref]) that decides [===], and their own enumerable
      members as an association list in [for ... in] order.  An object is a
      plain object: what it does not have itself it inherits from
      [Object.prototype].  Of a function or a primitive only the own
      enumerable members are modelled; accessors are outside the model.
    - A number is an integer ([VNumber], with the text [Number::toString]
      gives it, exponent form included), [NaN], or any other number
      ([VOtherNumber]: a fraction or an infinity), which is given by its
      text.  An integer above [2 ^ 53] stands for a number only if it is a
      double; [-0] behaves here as [0].
    - The element [dom] is a store of live properties ([dom[k]]) and of style
      properties ([dom.style[k]]); a read returns what was last written, or
      [undefined].  Every mutation of the element and every call into a
      collaborator (event delegation, unmounting, attributes) is appended to
      a chronological list of [effect]s.
    - The code runs in a state-and-exception monad [M] over [Heap]. *)

From Stdlib Require Import ZArith String Ascii List Lia.
From stdpp Require Import base strings gmap list pretty.

Local Open Scope Z_scope.

(** ** JavaScript values *)

#[warnings="-register-all"]
Inductive value : Type :=
| VUndefined
| VNull
| VBoolean (b : bool)
| VNumber (n : Z)
| VNaN
| VString (s : string)
| VObject (ref : nat) (members : list (string * value))
| VFunction (ref : nat) (members : list (string * value))
| VLinkEventListener (ref : nat) (linkEvent nextValue : value)
| VOtherNumber (text : string)
| VBuiltin (name : string).

(** The empty string literal ['']. *)
Definition empty : value := VString EmptyString.

(** [typeof o === 'function'] *)
Definition typeof_function (o : value) : bool :=
  match o with
  | VFunction _ _ | VLinkEventListener _ _ _ => true
  | VBuiltin name => negb (String.eqb name "Object.prototype")
  | _ => false
  end.

(** [a === b].  [NaN] equals nothing; objects and functions are compared by
    reference. *)
Definition strict_eq (a b : value) : bool :=
  match a, b with
  | VUndefined, VUndefined => true
  | VNull, VNull => true
  | VBoolean x, VBoolean y => Bool.eqb x y
  | VNumber x, VNumber y => Z.eqb x y
  | VString x, VString y => String.eqb x y
  | VObject r _, VObject r' _ => Nat.eqb r r'
  | VFunction r _, VFunction r' _ => Nat.eqb r r'
  | VLinkEventListener r _ _, VLinkEventListener r' _ _ => Nat.eqb r r'
  | VOtherNumber x, VOtherNumber y => String.eqb x y
  | VBuiltin x, VBuiltin y => String.eqb x y
  | _, _ => false
  end.

(** [a !== b] *)
Definition strict_neq (a b : value) : bool := negb (strict_eq a b).

(** [!!v] *)
Definition truthy (v : value) : bool :=
  match v with
  | VUndefined | VNull | VNaN => false
  | VBoolean b => b
  | VNumber n => negb (Z.eqb n 0)
  | VString s => negb (String.eqb s EmptyString)
  | VObject _ _ | VFunction _ _ | VLinkEventListener _ _ _ => true
  | VOtherNumber _ | VBuiltin _ => true
  end.

(** ** The text of a number

    [Number::toString] writes the fewest decimal digits that read back as
    the same double and, among those, the closest.  Up to [2 ^ 53] these are
    the digits of the integer.  Above, the digits are rounded: [reads_back z c]
    tells whether the decimal [c] reads back as the double [z], and
    [shortest] tries one significant digit, then two, and so on. *)

(** The multiple of [p] just below or at [z]. *)
Definition floor_to (z p : Z) : Z := z / p * p.

(** The decimal [c] reads back as the double [z], above [2 ^ 53]: it is at
    most half a gap from [z], the ends included when the mantissa of [z] is
    even; below a power of two the gap is half as wide. *)
Definition reads_back (z c : Z) : bool :=
  let ulp := 2 ^ (Z.log2 z - 52) in
  let mantissa := z / ulp in
  let below := if Z.eqb mantissa (2 ^ 52) then ulp / 2 else ulp in
  if Z.ltb c z then
    if Z.even mantissa then Z.leb (2 * (z - c)) below
    else Z.ltb (2 * (z - c)) below
  else
    if Z.even mantissa then Z.leb (2 * (c - z)) ulp
    else Z.ltb (2 * (c - z)) ulp.

(** Of the two multiples of [p] around [z], the one that reads back as [z];
    the closer one if both do, the one with the even digit at a tie. *)
Definition candidate (z p : Z) : option Z :=
  let lo := floor_to z p in
  let hi := lo + p in
  match reads_back z lo, reads_back z hi with
  | true, true =>
      if Z.ltb (z - lo) (hi - z) then Some lo
      else if Z.ltb (hi - z) (z - lo) then Some hi
      else if Z.even (lo / p) then Some lo else Some hi
  | true, false => Some lo
  | false, true => Some hi
  | false, false => None
  end.

Fixpoint shortest (fuel : nat) (z p : Z) : Z :=
  match fuel with
  | O => z
  | S fuel' =>
      if Z.leb p 1 then z
      else match candidate z p with
           | Some c => c
           | None => shortest fuel' z (p / 10)
           end
  end.

Fixpoint strip_zeros (digits : string) : string :=
  match digits with
  | EmptyString => EmptyString
  | String c rest =>
      match strip_zeros rest with
      | EmptyString =>
          if Ascii.eqb c "0"%char then EmptyString
          else String c EmptyString
      | rest' => String c rest'
      end
  end.

(** The digits [text] of a positive integer as [Number::toString] lays them
    out: as they are up to 21 digits, in exponent form beyond. *)
Definition layout (text : string) : string :=
  let n := Z.of_nat (String.length text) in
  if Z.leb n 21 then text
  else
    match strip_zeros text with
    | EmptyString => text
    | String c EmptyString =>
        String c EmptyString +:+ "e+"%string +:+ pretty (n - 1)
    | String c rest =>
        String c ("."%string +:+ rest) +:+ "e+"%string +:+ pretty (n - 1)
    end.

(** [Number::toString] of the integer [n]. *)
Definition Number_toString (n : Z) : string :=
  if Z.leb (Z.abs n) (2 ^ 53) then pretty n
  else
    let z := Z.abs n in
    let digits := String.length (pretty z) in
    let text := layout (pretty (shortest digits z (10 ^ (Z.of_nat digits - 1)))) in
    if Z.ltb n 0 then "-"%string +:+ text else text.

(** The string a primitive converts to when it is concatenated with a
    string; [None] for objects, whose conversion runs user code. *)
Definition ToString (v : value) : option string :=
  match v with
  | VUndefined => Some "undefined"%string
  | VNull => Some "null"%string
  | VBoolean true => Some "true"%string
  | VBoolean false => Some "false"%string
  | VNumber n => Some (Number_toString n)
  | VNaN => Some "NaN"%string
  | VOtherNumber text => Some text
  | VString s => Some s
  | _ => None
  end.

(** [v + s] for a string [s]. *)
Definition plus_string (v : value) (s : string) : value :=
  match ToString v with
  | Some t => VString (t +:+ s)
  | None => VUndefined
  end.

(** [ToInt32] and the bitwise [a & b] of two numbers. *)
Definition ToInt32 (n : Z) : Z := (n + 2 ^ 31) mod 2 ^ 32 - 2 ^ 31.

Definition bitand (a b : Z) : Z := Z.land (ToInt32 a) (ToInt32 b).

(** The own enumerable member names of a value, in enumeration order. *)
Definition members_of (o : value) : list (string * value) :=
  match o with
  | VObject _ ms | VFunction _ ms => ms
  | _ => []
  end.

Fixpoint assoc (k : string) (ms : list (string * value)) : value :=
  match ms with
  | [] => VUndefined
  | (k', v) :: ms' => if String.eqb k k' then v else assoc k ms'
  end.

(** What a plain object inherits: the properties of [Object.prototype].
    [constructor] is [Object], [__proto__] is [Object.prototype] itself, the
    others are its methods. *)
Definition Object_prototype : list string :=
  [ "constructor"; "__defineGetter__"; "__defineSetter__"; "hasOwnProperty";
    "__lookupGetter__"; "__lookupSetter__"; "isPrototypeOf";
    "propertyIsEnumerable"; "toString"; "valueOf"; "__proto__";
    "toLocaleString" ]%string.

Definition has_own (k : string) (ms : list (string * value)) : bool :=
  existsb (fun m => String.eqb k (fst m)) ms.

Definition from_Object_prototype (k : string) : value :=
  if String.eqb k "constructor" then VBuiltin "Object"
  else if String.eqb k "__proto__" then VBuiltin "Object.prototype"
  else VBuiltin ("Object.prototype." +:+ k).

(** [o[k]] of a value that is not [null] or [undefined]: the own member,
    or for a plain object without it what [Object.prototype] has under that
    name, or [undefined]. *)
Definition lookup (o : value) (k : string) : value :=
  if existsb (String.eqb k) Object_prototype then
    match o with
    | VObject _ ms => if has_own k ms then assoc k ms else from_Object_prototype k
    | _ => assoc k (members_of o)
    end
  else assoc k (members_of o).

(** [s.toLowerCase()], on the ASCII letters. *)
Definition lower (c : ascii) : ascii :=
  let n := N_of_ascii c in
  if (N.leb 65 n && N.leb n 90)%bool then ascii_of_N (n + 32) else c.

Fixpoint toLowerCase (s : string) : string :=
  match s with
  | EmptyString => EmptyString
  | String c s' => String (lower c) (toLowerCase s')
  end.

(** ** Helpers of [inferno-shared] *)

(** Modelled from the spec: [isFunction] of inferno-shared is not among the
    sources; it is the test the spec calls "callable". *)
Definition isFunction (o : value) : bool := typeof_function o.

(** Modelled from the spec: [isNullOrUndef] of inferno-shared, the spec's
    "absent/null". *)
Definition isNullOrUndef (o : value) : bool :=
  match o with VUndefined | VNull => true | _ => false end.

(** Modelled from the spec: [isNumber] of inferno-shared, the spec's
    "numeric". *)
Definition isNumber (o : value) : bool :=
  match o with VNumber _ | VNaN | VOtherNumber _ => true | _ => false end.

(** Modelled from the spec: [isString] of inferno-shared, the spec's
    "style string". *)
Definition isString (o : value) : bool :=
  match o with VString _ => true | _ => false end.

(** ** The element, the virtual node and the effects *)

Record Element : Type := {
  properties : gmap string value;
  style : gmap string value
}.

Record VNode : Type := {
  childFlags : Z;
  children : value
}.

Inductive effect : Type :=
| SetProperty (name : string) (v : value)
| SetStyleProperty (name : string) (v : value)
| RemoveAttribute (name : string)
| SetAttribute (name : string) (v : value)
| SetAttributeNS (ns name : string) (v : value)
| HandleEvent (name : string) (v : value)
| Unmount (children : value)
| UnmountAllChildren (children : value)
| SetChildren (v : value)
| SetChildFlags (flags : Z).

(** [fresh] is the reference the next function object is created with. *)
Record Heap : Type := {
  dom : Element;
  effects : list effect;
  fresh : nat
}.

(** ** The monad *)

Inductive outcome (A : Type) : Type :=
| Normal (a : A)
| Thrown (message : string).

Arguments Normal {A} a.
Arguments Thrown {A} message.

Definition M (A : Type) : Type := Heap -> outcome A * Heap.

Definition ret {A : Type} (a : A) : M A := fun h => (Normal a, h).

Definition bind {A B : Type} (m : M A) (k : A -> M B) : M B :=
  fun h =>
    match m h with
    | (Normal a, h') => k a h'
    | (Thrown e, h') => (Thrown e, h')
    end.

Definition throw {A : Type} (message : string) : M A :=
  fun h => (Thrown message, h).

Declare Scope js_scope.
Delimit Scope js_scope with js.
Notation "x <- m ;; k" := (bind m (fun x => k))
  (at level 100, m at next level, right associativity) : js_scope.
Notation "m ;;; k" := (bind m (fun _ => k))
  (at level 100, right associativity) : js_scope.

Definition emit (e : effect) : M unit :=
  fun h =>
    (Normal tt,
     {| dom := dom h; effects := effects h ++ [e]; fresh := fresh h |}).

Definition update_dom (f : Element -> Element) : M unit :=
  fun h =>
    (Normal tt, {| dom := f (dom h); effects := effects h; fresh := fresh h |}).

Definition read_dom : M Element := fun h => (Normal (dom h), h).

(** [o[k]] for a value [o]: a [TypeError] on [null] and [undefined], and
    otherwise what [lookup] finds. *)
Definition member (o : value) (k : string) : M value :=
  if isNullOrUndef o then throw "TypeError"%string
  else ret (lookup o k).

(** [dom[k]] *)
Definition getProperty (k : string) : M value :=
  fun h => (Normal (default VUndefined (properties (dom h) !! k)), h).

(** [dom[k] = v] *)
Definition setProperty (k : string) (v : value) : M unit :=
  (update_dom (fun d =>
     {| properties := <[k := v]> (properties d); style := style d |}) ;;;
   emit (SetProperty k v))%js.

(** [dom.style[k] = v] *)
Definition setStyleProperty (k : string) (v : value) : M unit :=
  (update_dom (fun d =>
     {| properties := properties d; style := <[k := v]> (style d) |}) ;;;
   emit (SetStyleProperty k v))%js.

Definition removeAttribute (name : string) : M unit :=
  emit (RemoveAttribute name).

Definition setAttribute (name : string) (v : value) : M unit :=
  emit (SetAttribute name v).

Definition setAttributeNS (ns name : string) (v : value) : M unit :=
  emit (SetAttributeNS ns name v).

(** [for (k in o) body(k)] *)
Fixpoint for_each (ks : list string) (body : string -> M unit) : M unit :=
  match ks with
  | [] => ret tt
  | k :: ks' => (body k ;;; for_each ks' body)%js
  end.

Definition for_in (o : value) (body : string -> M unit) : M unit :=
  for_each (map fst (members_of o)) body.

(** ** What the module imports

    The classification tables of [./constants], the flag constants of
    [inferno-vnode-flags], the markup comparison of [./utils/innerhtml] and
    the build mode are not part of the sources; the reconciler is verified
    for every choice of them. *)

Class Imports : Type := {
  delegatedEvents : gset string;
  skipProps : gset string;
  booleanProps : gset string;
  strictProps : gset string;
  isUnitlessNumber : gset string;
  namespaces : gmap string string;
  VNodeFlags_SelectElement : Z;
  ChildFlags_MultipleChildren : Z;
  ChildFlags_HasVNodeChildren : Z;
  ChildFlags_HasInvalidChildren : Z;
  isSameInnerHTML : Element -> value -> bool;
  (** [process.env.NODE_ENV === 'production'] *)
  production : bool
}.

(** [set.has(k)] and [map.has(k)] *)
Definition has (set : gset string) (k : string) : bool :=
  bool_decide (k ∈ set).

Definition has_key (map : gmap string string) (k : string) : bool :=
  bool_decide (is_Some (map !! k)).

(** [map.get(k) as string] *)
Definition get (map : gmap string string) (k : string) : string :=
  default EmptyString (map !! k).

(** The double quote of the development warning's text. *)
Definition dquote : string := String (ascii_of_N 34) EmptyString.

Section Reconciler.

Context `{imports : Imports}.

Local Open Scope js_scope.
Local Open Scope bool_scope.

(** Modelled from the spec: [handleEvent] of the event-delegation subsystem
    is not among the sources; the call registers the handler for the node,
    or deregisters it when the handler is absent.  The call is recorded. *)
Definition handleEvent (name : string) (nextValue : value) : M unit :=
  emit (HandleEvent name nextValue).

(** Modelled from the spec: [unmount] and [unmountAllChildren] release a
    child representation and are not among the sources.  The call is
    recorded. *)
Definition unmount (children : value) : M unit := emit (Unmount children).

Definition unmountAllChildren (children : value) : M unit :=
  emit (UnmountAllChildren children).

(** Modelled from the spec: [throwError] of inferno-shared is not among the
    sources; it signals the violation by throwing. *)
Definition throwError {A : Type} (message : string) : M A := throw message.

Definition isAttrAnEvent (attr : string) : bool :=
  match attr with
  | String c0 (String c1 _) =>
      Ascii.eqb c0 "o"%char && Ascii.eqb c1 "n"%char
  | _ => false
  end.

(** The function [createLinkEvent] returns is a new function object; its
    body is [linkEvent_body]. *)
Definition createLinkEvent (linkEvent nextValue : value) : M value :=
  fun h =>
    (Normal (VLinkEventListener (fresh h) linkEvent nextValue),
     {| dom := dom h; effects := effects h; fresh := S (fresh h) |}).

Definition patchEvent (name : string) (lastValue nextValue : value) : M unit :=
  let nameLowerCase := toLowerCase name in
  if negb (isFunction nextValue) && negb (isNullOrUndef nextValue) then
    linkEvent <- member nextValue "event"%string ;;
    if truthy linkEvent && isFunction linkEvent then
      listener <- createLinkEvent linkEvent nextValue ;;
      setProperty nameLowerCase listener
    else if negb production then
      throwError
        ("an event on a VNode "%string +:+ dquote +:+ name +:+ dquote
         +:+ ". was not a function or a valid linkEvent."%string)
    else ret tt
  else
    domEvent <- getProperty nameLowerCase ;;
    unwrapped <-
      (if negb (truthy domEvent) then ret true
       else wrapped <- member domEvent "wrapped"%string ;;
            ret (negb (truthy wrapped))) ;;
    if (unwrapped : bool) then setProperty nameLowerCase nextValue else ret tt.

Definition patchStyle (lastAttrValue nextAttrValue : value) : M unit :=
  if isString nextAttrValue then
    setStyleProperty "cssText"%string nextAttrValue
  else if negb (isNullOrUndef lastAttrValue) && negb (isString lastAttrValue)
  then
    for_in nextAttrValue (fun style =>
      value <- member nextAttrValue style ;;
      last <- member lastAttrValue style ;;
      if strict_neq value last then
        setStyleProperty style
          (if negb (isNumber value) || has isUnitlessNumber style
           then value
           else plus_string value "px"%string)
      else ret tt) ;;;
    for_in lastAttrValue (fun style =>
      next <- member nextAttrValue style ;;
      if isNullOrUndef next then setStyleProperty style empty else ret tt)
  else
    for_in nextAttrValue (fun style =>
      value <- member nextAttrValue style ;;
      setStyleProperty style
        (if negb (isNumber value) || has isUnitlessNumber style
         then value
         else plus_string value "px"%string)).

Definition removeProp (prop : string) (lastValue : value) (nextFlags : Z)
  : M unit :=
  if String.eqb prop "value"%string then
    setProperty "value"%string
      (if negb (Z.eqb (bitand nextFlags VNodeFlags_SelectElement) 0)
       then VNull else empty)
  else if String.eqb prop "style"%string then
    removeAttribute "style"%string
  else if has delegatedEvents prop then
    handleEvent prop VNull
  else if isAttrAnEvent prop then
    patchEvent prop lastValue VNull
  else if String.eqb prop "dangerouslySetInnerHTML"%string then
    setProperty "textContent"%string empty
  else
    removeAttribute prop.

(** [(v && v.__html) || '']; the member is read of a truthy [v] only, so the
    read cannot throw. *)
Definition html_of (v : value) : value :=
  let html :=
    if truthy v then assoc "__html"%string (members_of v) else v in
  if truthy html then html else empty.

(** The element [dom] is the one of the heap.  The last argument is the
    object [lastVNode] refers to ([None] for [null]); the result is that
    object after the call, and the two assignments to its fields are
    recorded among the effects. *)
Definition patchProp (prop : string) (lastValue nextValue : value)
    (isSVG hasControlledValue : bool) (lastVNode : option VNode)
  : M (option VNode) :=
  if strict_neq lastValue nextValue then
    if has delegatedEvents prop then
      handleEvent prop nextValue ;;; ret lastVNode
    else if has skipProps prop
            || (hasControlledValue && String.eqb prop "value"%string) then
      ret lastVNode
    else if has booleanProps prop then
      let prop :=
        if String.eqb prop "autoFocus"%string then toLowerCase prop else prop
      in
      setProperty prop (VBoolean (truthy nextValue)) ;;; ret lastVNode
    else if has strictProps prop then
      let value := if isNullOrUndef nextValue then empty else nextValue in
      current <- getProperty prop ;;
      (if strict_neq current value then setProperty prop value else ret tt) ;;;
      ret lastVNode
    else if isAttrAnEvent prop then
      patchEvent prop lastValue nextValue ;;; ret lastVNode
    else if isNullOrUndef nextValue then
      removeAttribute prop ;;; ret lastVNode
    else if String.eqb prop "style"%string then
      patchStyle lastValue nextValue ;;; ret lastVNode
    else if String.eqb prop "dangerouslySetInnerHTML"%string then
      let lastHtml := html_of lastValue in
      let nextHtml := html_of nextValue in
      if strict_neq lastHtml nextHtml then
        element <- read_dom ;;
        if negb (isNullOrUndef nextHtml)
           && negb (isSameInnerHTML element nextHtml) then
          match lastVNode with
          | Some vnode =>
              (if negb (Z.eqb (bitand (childFlags vnode)
                                 ChildFlags_MultipleChildren) 0) then
                 unmountAllChildren (children vnode)
               else if negb (Z.eqb (bitand (childFlags vnode)
                                      ChildFlags_HasVNodeChildren) 0) then
                 unmount (children vnode)
               else ret tt) ;;;
              emit (SetChildren VNull) ;;;
              emit (SetChildFlags ChildFlags_HasInvalidChildren) ;;;
              setProperty "innerHTML"%string nextHtml ;;;
              ret (Some {| childFlags := ChildFlags_HasInvalidChildren;
                           children := VNull |})
          | None =>
              setProperty "innerHTML"%string nextHtml ;;; ret None
          end
        else ret lastVNode
      else ret lastVNode
    else if isSVG && has_key namespaces prop then
      setAttributeNS (get namespaces prop) prop nextValue ;;; ret lastVNode
    else
      setAttribute prop nextValue ;;; ret lastVNode
  else ret lastVNode.

End Reconciler.

(** ** Mounting

    [mountProps] imports, besides the above, the form-element mask of
    [inferno-vnode-flags] and the two entry points of
    [./wrappers/processElement]; they are not part of the sources either.
    Both may throw, and may do to the element whatever they like. *)

Class MountImports : Type := {
  VNodeFlags_FormElement : Z;
  isControlledFormElement : value -> M bool;
  processElement : Z -> VNode -> value -> bool -> bool -> M unit
}.

Section Mount.

Context `{imports : Imports} `{mount_imports : MountImports}.

Local Open Scope js_scope.

(** The element [dom] is the one of the heap; the fifth argument of
    [processElement] is the constant [true].  The properties are [null],
    [undefined] or an object: the characters a [for ... in] enumerates of a
    string are not modelled. *)
Definition mountProps (vNode : VNode) (flags : Z) (props : value)
    (isSVG : bool) : M unit :=
  let isFormElement := Z.ltb 0 (bitand flags VNodeFlags_FormElement) in
  hasControlledValue <-
    (if isFormElement then isControlledFormElement props else ret false) ;;
  for_in props (fun prop =>
    next <- member props prop ;;
    patchProp prop VNull next isSVG hasControlledValue None ;;; ret tt) ;;;
  if isFormElement then
    processElement flags vNode props true hasControlledValue
  else ret tt.

End Mount.

(** ** The listener of a linked event *)

Inductive call : Type :=
| Call (callee : value) (arguments : list value).

(** What calling [listener(e)] does when [listener] is a function made by
    [createLinkEvent]: its body is [linkEvent(nextValue.data, e)].  The body
    of any other function is user code, of which nothing is known. *)
Definition call_listener (listener e : value) : option (list call) :=
  match listener with
  | VLinkEventListener _ linkEvent nextValue =>
      if isNullOrUndef nextValue then None
      else Some [Call linkEvent [assoc "data"%string (members_of nextValue); e]]
  | _ => None
  end.

(** ** A concrete choice of the imports

    An instance in the shape of Inferno's tables and flags, on which the
    code is evaluated in the examples below. *)

Module Sample.

Local Open Scope string_scope.

Definition element_innerHTML (d : Element) : value :=
  default VUndefined (properties d !! "innerHTML").

Definition imports : Imports := {|
  delegatedEvents := {[ "onClick"; "onDblClick"; "onKeyDown"; "onSubmit" ]};
  skipProps := {[ "children"; "childrenType"; "defaultValue"; "ref"; "key" ]};
  booleanProps := {[ "muted"; "disabled"; "readOnly"; "autoFocus"; "hidden" ]};
  strictProps := {[ "volume"; "defaultChecked" ]};
  isUnitlessNumber := {[ "zIndex"; "opacity"; "flexGrow"; "lineHeight" ]};
  namespaces := {[ "xlink:href" := "http://www.w3.org/1999/xlink" ]};
  VNodeFlags_SelectElement := 256;
  ChildFlags_MultipleChildren := 12;
  ChildFlags_HasVNodeChildren := 2;
  ChildFlags_HasInvalidChildren := 1;
  isSameInnerHTML := fun d html => strict_eq (element_innerHTML d) html;
  production := false
|}.

Definition blank : Heap :=
  {| dom := {| properties := ∅; style := ∅ |}; effects := []; fresh := 0 |}.

(** The heap [h] with the live property [k] of its element holding [v]. *)
Definition with_property (k : string) (v : value) (h : Heap) : Heap :=
  {| dom := {| properties := <[k := v]> (properties (dom h));
               style := style (dom h) |};
     effects := effects h;
     fresh := fresh h |}.

End Sample.

(** ** Further concrete imports

    A production build of the sample imports, and an instance of what
    [mountProps] imports: a form-element mask, a control that counts as
    controlled when its properties carry a [value], and a [processElement]
    that assigns that value. *)

Module SampleMount.

Local Open Scope string_scope.

Definition production_imports : Imports := {|
  delegatedEvents := @delegatedEvents Sample.imports;
  skipProps := @skipProps Sample.imports;
  booleanProps := @booleanProps Sample.imports;
  strictProps := @strictProps Sample.imports;
  isUnitlessNumber := @isUnitlessNumber Sample.imports;
  namespaces := @namespaces Sample.imports;
  VNodeFlags_SelectElement := 256;
  ChildFlags_MultipleChildren := 12;
  ChildFlags_HasVNodeChildren := 2;
  ChildFlags_HasInvalidChildren := 1;
  isSameInnerHTML := @isSameInnerHTML Sample.imports;
  production := true
|}.

Definition mount_imports : MountImports := {|
  VNodeFlags_FormElement := 448;
  isControlledFormElement := fun props =>
    if isNullOrUndef props then throw "TypeError"
    else ret (negb (isNullOrUndef (assoc "value" (members_of props))));
  processElement := fun _ _ props _ hasControlledValue =>
    if hasControlledValue
    then setProperty "value" (assoc "value" (members_of props))
    else ret tt
|}.

Definition vnode : VNode := {| childFlags := 1; children := VNull |}.

End SampleMount.

(** ** Vocabulary of the statements *)

Section Vocabulary.

Context `{imports : Imports}.

(** [patchProp] applied two times in a row for the same name and the same
    next value. *)
Definition patchProp_twice (prop : string) (lastValue lastValue' nextValue : value)
    (isSVG hasControlledValue : bool) (lastVNode : option VNode)
  : M (option VNode) :=
  bind (patchProp prop lastValue nextValue isSVG hasControlledValue lastVNode)
       (patchProp prop lastValue' nextValue isSVG hasControlledValue).

(** The value the strict branch compares and writes: [null] and
    [undefined] become the empty string. *)
Definition coalesce (nextValue : value) : value :=
  if isNullOrUndef nextValue then empty else nextValue.

(** The number of writes [dom[k] = v] among the effects. *)
Fixpoint property_writes (es : list effect) : nat :=
  match es with
  | [] => 0%nat
  | SetProperty _ _ :: es' => S (property_writes es')
  | _ :: es' => property_writes es'
  end.

(** The text of a numeric value; [None] for a value that is not numeric. *)
Definition number_text (v : value) : option string :=
  match v with
  | VNumber n => Some (Number_toString n)
  | VNaN => Some "NaN"%string
  | VOtherNumber text => Some text
  | _ => None
  end.

(** The unit rule in the words of the specification: a numeric value is
    written as it is for a key of the unitless set and with ["px"] appended
    for any other key; a value that is not numeric is written as it is. *)
Definition with_unit (unitless : bool) (v : value) : value :=
  match number_text v with
  | Some text => if unitless then v else VString (text +:+ "px"%string)
  | None => v
  end.

(** A style as the reconciler is meant to be given one: absent, a string,
    or a plain object. *)
Definition plain_style (v : value) : bool :=
  match v with
  | VUndefined | VNull | VString _ | VObject _ _ => true
  | _ => false
  end.

(** The calls that release a prior child representation, by its shape. *)
Definition release (vnode : VNode) : list effect :=
  if negb (Z.eqb (bitand (childFlags vnode) ChildFlags_MultipleChildren) 0)
  then [UnmountAllChildren (children vnode)]
  else if negb (Z.eqb (bitand (childFlags vnode) ChildFlags_HasVNodeChildren) 0)
  then [Unmount (children vnode)]
  else [].

(** A write that clears a style key. *)
Definition is_clear (e : effect) : Prop :=
  exists k : string, e = SetStyleProperty k (VString EmptyString).

End Vocabulary.

(** ** Vocabulary of the further statements *)

(** A relation between the heap before and the heap after that a
    computation keeps, whatever its outcome. *)
Definition keeps {A : Type} (R : Heap -> Heap -> Prop) (m : M A) : Prop :=
  forall h : Heap, R h (snd (m h)).

(** A computation that returns normally from every heap. *)
Definition returns {A : Type} (m : M A) : Prop :=
  forall h : Heap, exists (a : A) (h' : Heap), m h = (Normal a, h').

(** A computation that has changed nothing whenever it throws. *)
Definition atomic {A : Type} (m : M A) : Prop :=
  forall (h h' : Heap) (message : string),
    m h = (Thrown message, h') -> h' = h.

(** The live property [k] is the same in both heaps. *)
Definition same_property (k : string) (h h' : Heap) : Prop :=
  properties (dom h') !! k = properties (dom h) !! k.

(** Only the style store and the effects differ. *)
Definition same_but_style (h h' : Heap) : Prop :=
  properties (dom h') = properties (dom h) /\ fresh h' = fresh h.

(** The heap [h] after the write [dom[k] = v]. *)
Definition written (k : string) (v : value) (h : Heap) : Heap :=
  {| dom := {| properties := <[k := v]> (properties (dom h));
               style := style (dom h) |};
     effects := effects h ++ [SetProperty k v];
     fresh := fresh h |}.

(** The heap [h] after one more effect that leaves the element alone. *)
Definition recorded (e : effect) (h : Heap) : Heap :=
  {| dom := dom h; effects := effects h ++ [e]; fresh := fresh h |}.

(** [k] is among the names [ks]. *)
Definition mem (k : string) (ks : list string) : bool :=
  existsb (String.eqb k) ks.

(** The names a [for ... in] over the value enumerates. *)
Definition keys (o : value) : list string := map fst (members_of o).

(** The heap [h] after the write [dom.style[k] = v]. *)
Definition styled (k : string) (v : value) (h : Heap) : Heap :=
  {| dom := {| properties := properties (dom h);
               style := <[k := v]> (style (dom h)) |};
     effects := effects h ++ [SetStyleProperty k v];
     fresh := fresh h |}.

(** The heap [h] after one function object was created. *)
Definition allocated (h : Heap) : Heap :=
  {| dom := dom h; effects := effects h; fresh := S (fresh h) |}.

(** The effects on virtual nodes are the same in both heaps. *)
Definition same_vnode_effects (touches : effect -> bool) (h h' : Heap) : Prop :=
  List.filter touches (effects h') = List.filter touches (effects h).

(** No name occurs two times in [ks]. *)
Fixpoint distinct (ks : list string) : bool :=
  match ks with
  | [] => true
  | k :: ks' => negb (mem k ks') && distinct ks'
  end.

Section MountVocabulary.

Context `{imports : Imports}.

(** The entries of the properties applied one after the other, as on
    mount: each with [null] as its previous value and without a prior
    virtual node. *)
Fixpoint apply_entries (entries : list (string * value))
    (isSVG hasControlledValue : bool) : M unit :=
  match entries with
  | [] => ret tt
  | (prop, next) :: rest =>
      bind (patchProp prop VNull next isSVG hasControlledValue None)
           (fun _ => apply_entries rest isSVG hasControlledValue)
  end.

End MountVocabulary.

(** An effect that releases children or marks a virtual node. *)
Definition touches_vnode (e : effect) : bool :=
  match e with
  | Unmount _ | UnmountAllChildren _ | SetChildren _ | SetChildFlags _ => true
  | _ => false
  end.

(** * Properties *)

Section Properties.

Context `{imports : Imports}.

Local Open Scope string_scope.
Local Open Scope list_scope.

(** Running the monad: unfold its operations and the host's primitives. *)
Ltac run :=
  repeat (unfold bind, ret, throw, emit, update_dom, read_dom, member,
            lookup, getProperty, setProperty, setStyleProperty,
            removeAttribute, setAttribute, setAttributeNS, handleEvent,
            unmount, unmountAllChildren, createLinkEvent;
          simpl).

(** ** Facts about values *)

Lemma strict_neq_false (a b : value) :
  strict_eq a b = true -> strict_neq a b = false.
Proof. unfold strict_neq. intros ->. reflexivity. Qed.

Lemma strict_neq_true (a b : value) :
  strict_eq a b = false -> strict_neq a b = true.
Proof. unfold strict_neq. intros ->. reflexivity. Qed.

Lemma isFunction_truthy (f : value) : isFunction f = true -> truthy f = true.
Proof. destruct f; simpl; congruence. Qed.

Lemma html_of_not_absent (v : value) : isNullOrUndef (html_of v) = false.
Proof.
  unfold html_of.
  destruct (truthy (if truthy v then assoc "__html" (members_of v) else v))
    eqn:E; [|reflexivity].
  destruct (if truthy v then assoc "__html" (members_of v) else v);
    simpl in *; congruence.
Qed.

(** ** The reference guard of [patchProp] *)

(** C9.  When [lastValue === nextValue], [patchProp] changes nothing,
    whatever the property name and the state of the element: no property or
    style write, no attribute set or removed, no event registered or
    deregistered, and the prior virtual node is left as it was.  The guard
    comes before any classification of the name. *)
Theorem patchProp_same_reference
    (prop : string) (lastValue nextValue : value)
    (isSVG hasControlledValue : bool) (lastVNode : option VNode) (h : Heap) :
  strict_eq lastValue nextValue = true ->
  patchProp prop lastValue nextValue isSVG hasControlledValue lastVNode h
  = (Normal lastVNode, h).
Proof.
  intros Hsame. unfold patchProp.
  rewrite (strict_neq_false _ _ Hsame). reflexivity.
Qed.

(** ** Removal of ["value"] *)

(** C7.  [removeProp] for the name ["value"] writes the live property
    [value], whatever the previous value and the element: [null] when the
    flags carry the select-element bit, the empty string otherwise. *)
Theorem removeProp_value (lastValue : value) (nextFlags : Z) (h : Heap) :
  let reset :=
    if Z.eqb (bitand nextFlags VNodeFlags_SelectElement) 0
    then VString EmptyString else VNull in
  let h' := snd (removeProp "value" lastValue nextFlags h) in
  fst (removeProp "value" lastValue nextFlags h) = Normal tt
  /\ properties (dom h') !! "value" = Some reset
  /\ effects h' = effects h ++ [SetProperty "value" reset].
Proof.
  unfold removeProp. run.
  destruct (Z.eqb (bitand nextFlags VNodeFlags_SelectElement) 0); simpl;
    rewrite lookup_insert_eq; auto.
Qed.

(** ** Style *)

(** C5.  From [{a: "1px", b: "2px"}] to [{a: "1px", c: "3px"}], [patchStyle]
    writes ["3px"] to [c], then the empty string to [b], and nothing else:
    [a], whose value is the same on both sides, is not written. *)
Theorem patchStyle_structured_example (r r' : nat) (h : Heap) :
  patchStyle (VObject r [("a", VString "1px"); ("b", VString "2px")])
             (VObject r' [("a", VString "1px"); ("c", VString "3px")]) h
  = (Normal tt,
     {| dom := {| properties := properties (dom h);
                  style := <["b" := VString EmptyString]>
                             (<["c" := VString "3px"]> (style (dom h))) |};
        effects := effects h ++ [SetStyleProperty "c" (VString "3px");
                                 SetStyleProperty "b" (VString EmptyString)];
        fresh := fresh h |}).
Proof.
  unfold patchStyle, for_in. run.
  rewrite <- app_assoc. reflexivity.
Qed.

(** ** Events *)

Lemma truthy_not_absent (v : value) : truthy v = true -> isNullOrUndef v = false.
Proof. destruct v; simpl; congruence. Qed.

(** C10.  In the branch of [patchEvent] for a next value that is a plain
    function or is absent, a handler that is already in the element's event
    slot and carries a truthy [wrapped] marker is kept: nothing is written,
    also when the next value is a plain function, which is therefore not
    installed. *)
Theorem patchEvent_keeps_wrapped
    (name : string) (lastValue nextValue domEvent : value) (h : Heap) :
  isFunction nextValue || isNullOrUndef nextValue = true ->
  properties (dom h) !! toLowerCase name = Some domEvent ->
  truthy domEvent = true ->
  truthy (assoc "wrapped" (members_of domEvent)) = true ->
  patchEvent name lastValue nextValue h = (Normal tt, h).
Proof.
  intros Hnext Hslot Htruthy Hwrapped. unfold patchEvent.
  replace (negb (isFunction nextValue) && negb (isNullOrUndef nextValue))
    with false
    by (destruct (isFunction nextValue), (isNullOrUndef nextValue);
        simpl in *; congruence).
  run. rewrite Hslot. simpl. rewrite Htruthy. run.
  rewrite (truthy_not_absent _ Htruthy). run.
  rewrite Hwrapped. reflexivity.
Qed.

(** C8.  For a linked event, an object that is not itself a function and
    whose member [event] is a function [handler] and whose member [data] is
    [data], [patchEvent] stores a listener in the lower-cased slot, and
    calling that listener with an event [e] makes exactly one call,
    [handler(data, e)]. *)
Theorem patchEvent_linked_event
    (name : string) (lastValue nextValue handler data e : value) (h : Heap) :
  isFunction nextValue = false ->
  isNullOrUndef nextValue = false ->
  assoc "event" (members_of nextValue) = handler ->
  isFunction handler = true ->
  assoc "data" (members_of nextValue) = data ->
  exists (listener : value) (h' : Heap),
    patchEvent name lastValue nextValue h = (Normal tt, h')
    /\ properties (dom h') !! toLowerCase name = Some listener
    /\ call_listener listener e = Some [Call handler [data; e]].
Proof.
  intros Hobject Hpresent Hevent Hcallable Hdata.
  exists (VLinkEventListener (fresh h) handler nextValue). eexists.
  unfold patchEvent. run.
  rewrite Hobject, !Hpresent, Hevent, Hdata, Hcallable,
    (isFunction_truthy _ Hcallable).
  simpl. split; [reflexivity|]. split; [apply lookup_insert_eq|reflexivity].
Qed.

(** ** Boolean properties *)

(** C2, as the code has it.  For a name that reaches the boolean branch
    (in [booleanProps], and neither a delegated event nor skipped) and a
    previous value that is not [===] the next one, [patchProp] leaves the
    live property equal to [!!nextValue]; the property written is
    [autofocus] for the name [autoFocus]. *)
Theorem patchProp_boolean
    (prop : string) (lastValue nextValue : value)
    (isSVG hasControlledValue : bool) (lastVNode : option VNode) (h : Heap) :
  has delegatedEvents prop = false ->
  has skipProps prop = false ->
  hasControlledValue && String.eqb prop "value" = false ->
  has booleanProps prop = true ->
  strict_eq lastValue nextValue = false ->
  let name := if String.eqb prop "autoFocus" then "autofocus" else prop in
  exists h' : Heap,
    patchProp prop lastValue nextValue isSVG hasControlledValue lastVNode h
    = (Normal lastVNode, h')
    /\ properties (dom h') !! name = Some (VBoolean (truthy nextValue))
    /\ effects h'
       = effects h ++ [SetProperty name (VBoolean (truthy nextValue))].
Proof.
  intros Hdelegated Hskip Hcontrolled Hboolean Hchanged name.
  eexists. unfold patchProp.
  rewrite (strict_neq_true _ _ Hchanged), Hdelegated, Hskip, Hcontrolled,
    Hboolean.
  simpl. run.
  assert (Hname :
            (if String.eqb prop "autoFocus" then toLowerCase prop else prop)
            = name).
  { subst name. destruct (String.eqb prop "autoFocus") eqn:E; [|reflexivity].
    apply String.eqb_eq in E. subst prop. reflexivity. }
  rewrite Hname.
  split; [reflexivity|]. split; [apply lookup_insert_eq|reflexivity].
Qed.

(** ** Strict properties *)

(** C3, as the code has it.  For a name that reaches the strict branch, a
    next value other than [NaN] and a first previous value that is not
    [===] it, two applications of [patchProp] in a row write the property
    at most once: once, with absent/null coalesced to the empty string, when
    the live value differs from the coalesced value at the start, and not at
    all when it is already equal.  The second application changes
    nothing. *)
Theorem patchProp_strict_twice
    (prop : string) (lastValue lastValue' nextValue : value)
    (isSVG hasControlledValue : bool) (lastVNode : option VNode) (h : Heap) :
  has delegatedEvents prop = false ->
  has skipProps prop = false ->
  hasControlledValue && String.eqb prop "value" = false ->
  has booleanProps prop = false ->
  has strictProps prop = true ->
  strict_eq lastValue nextValue = false ->
  strict_eq (coalesce nextValue) (coalesce nextValue) = true ->
  let value := coalesce nextValue in
  let current := default VUndefined (properties (dom h) !! prop) in
  exists h1 : Heap,
    patchProp prop lastValue nextValue isSVG hasControlledValue lastVNode h
    = (Normal lastVNode, h1)
    /\ patchProp prop lastValue' nextValue isSVG hasControlledValue lastVNode h1
       = (Normal lastVNode, h1)
    /\ patchProp_twice prop lastValue lastValue' nextValue isSVG
         hasControlledValue lastVNode h
       = (Normal lastVNode, h1)
    /\ effects h1
       = effects h ++ (if strict_neq current value
                       then [SetProperty prop value] else [])
    /\ properties (dom h1) !! prop
       = (if strict_neq current value then Some value
          else properties (dom h) !! prop).
Proof.
  intros Hdelegated Hskip Hcontrolled Hboolean Hstrict Hchanged Hself value
    current.
  subst value. unfold coalesce in *.
  set (value := if isNullOrUndef nextValue then empty else nextValue) in *.
  assert (Hsecond : forall h1 : Heap,
    strict_neq (default VUndefined (properties (dom h1) !! prop)) value = false ->
    patchProp prop lastValue' nextValue isSVG hasControlledValue lastVNode h1
    = (Normal lastVNode, h1)).
  { intros h1 Hequal. unfold patchProp.
    destruct (strict_neq lastValue' nextValue); [|reflexivity].
    rewrite Hdelegated, Hskip, Hcontrolled, Hboolean, Hstrict. simpl. run.
    fold value. rewrite Hequal. reflexivity. }
  assert (Hfirst : exists h1 : Heap,
    patchProp prop lastValue nextValue isSVG hasControlledValue lastVNode h
    = (Normal lastVNode, h1)
    /\ strict_neq (default VUndefined (properties (dom h1) !! prop)) value
       = false
    /\ effects h1
       = effects h ++ (if strict_neq current value
                       then [SetProperty prop value] else [])
    /\ properties (dom h1) !! prop
       = (if strict_neq current value then Some value
          else properties (dom h) !! prop)).
  { unfold patchProp.
    rewrite (strict_neq_true _ _ Hchanged), Hdelegated, Hskip, Hcontrolled,
      Hboolean, Hstrict.
    simpl. run. fold value. fold current.
    destruct (strict_neq current value) eqn:Hdiffers; run; eexists;
      (split; [reflexivity|]); simpl.
    - rewrite lookup_insert_eq. simpl.
      rewrite (strict_neq_false _ _ Hself). auto.
    - fold current. rewrite Hdiffers, app_nil_r. auto. }
  destruct Hfirst as (h1 & Hrun & Hequal & Heffects & Hlive).
  exists h1. split; [exact Hrun|]. split; [exact (Hsecond h1 Hequal)|].
  split; [|split; assumption].
  unfold patchProp_twice, bind. rewrite Hrun. exact (Hsecond h1 Hequal).
Qed.

(** ** Raw HTML *)

(** C4.  When [patchProp] reaches the raw-HTML branch with a changed
    payload (the previous and next [__html] differ, and the element's
    current markup is not the next one) and a prior virtual node is
    recorded, it first releases the prior children ([unmountAllChildren] for
    multiple children, [unmount] for a single virtual-node child), then
    marks the representation invalid ([children = null], [childFlags =
    HasInvalidChildren]), and only then assigns the next markup to
    [innerHTML]: these are the effects of the call, in this order. *)
Theorem patchProp_raw_html_releases_first
    (lastValue nextValue : value) (isSVG hasControlledValue : bool)
    (vnode : VNode) (h : Heap) :
  has delegatedEvents "dangerouslySetInnerHTML" = false ->
  has skipProps "dangerouslySetInnerHTML" = false ->
  has booleanProps "dangerouslySetInnerHTML" = false ->
  has strictProps "dangerouslySetInnerHTML" = false ->
  strict_eq lastValue nextValue = false ->
  isNullOrUndef nextValue = false ->
  strict_eq (html_of lastValue) (html_of nextValue) = false ->
  isSameInnerHTML (dom h) (html_of nextValue) = false ->
  exists h' : Heap,
    patchProp "dangerouslySetInnerHTML" lastValue nextValue isSVG
      hasControlledValue (Some vnode) h
    = (Normal (Some {| childFlags := ChildFlags_HasInvalidChildren;
                       children := VNull |}), h')
    /\ effects h'
       = effects h ++ release vnode
         ++ [SetChildren VNull;
             SetChildFlags ChildFlags_HasInvalidChildren;
             SetProperty "innerHTML" (html_of nextValue)]
    /\ properties (dom h') !! "innerHTML" = Some (html_of nextValue).
Proof.
  intros Hdelegated Hskip Hboolean Hstrict Hchanged Hpresent Hhtml Hmarkup.
  unfold patchProp.
  rewrite (strict_neq_true _ _ Hchanged), Hdelegated, Hskip, Hboolean,
    Hstrict, Hpresent, (strict_neq_true _ _ Hhtml).
  simpl. rewrite andb_false_r. simpl. run.
  rewrite html_of_not_absent, Hmarkup. simpl. unfold release.
  destruct (negb (Z.eqb (bitand (childFlags vnode)
                           ChildFlags_MultipleChildren) 0));
    [|destruct (negb (Z.eqb (bitand (childFlags vnode)
                               ChildFlags_HasVNodeChildren) 0))];
    run; eexists; (split; [reflexivity|]); simpl;
    rewrite lookup_insert_eq, <- !app_assoc; auto.
Qed.

(** Without a recorded prior virtual node there is nothing to release: the
    markup is assigned at once. *)
Lemma patchProp_raw_html_no_prior
    (lastValue nextValue : value) (isSVG hasControlledValue : bool) (h : Heap) :
  has delegatedEvents "dangerouslySetInnerHTML" = false ->
  has skipProps "dangerouslySetInnerHTML" = false ->
  has booleanProps "dangerouslySetInnerHTML" = false ->
  has strictProps "dangerouslySetInnerHTML" = false ->
  strict_eq lastValue nextValue = false ->
  isNullOrUndef nextValue = false ->
  strict_eq (html_of lastValue) (html_of nextValue) = false ->
  isSameInnerHTML (dom h) (html_of nextValue) = false ->
  effects (snd (patchProp "dangerouslySetInnerHTML" lastValue nextValue isSVG
                  hasControlledValue None h))
  = effects h ++ [SetProperty "innerHTML" (html_of nextValue)].
Proof.
  intros Hdelegated Hskip Hboolean Hstrict Hchanged Hpresent Hhtml Hmarkup.
  unfold patchProp.
  rewrite (strict_neq_true _ _ Hchanged), Hdelegated, Hskip, Hboolean,
    Hstrict, Hpresent, (strict_neq_true _ _ Hhtml).
  simpl. rewrite andb_false_r. simpl. run.
  rewrite html_of_not_absent, Hmarkup. reflexivity.
Qed.

(** Re-applying a payload with the same markup writes nothing. *)
Lemma patchProp_raw_html_same_markup
    (lastValue nextValue : value) (isSVG hasControlledValue : bool)
    (lastVNode : option VNode) (h : Heap) :
  has delegatedEvents "dangerouslySetInnerHTML" = false ->
  has skipProps "dangerouslySetInnerHTML" = false ->
  has booleanProps "dangerouslySetInnerHTML" = false ->
  has strictProps "dangerouslySetInnerHTML" = false ->
  isNullOrUndef nextValue = false ->
  strict_eq (html_of lastValue) (html_of nextValue) = true ->
  patchProp "dangerouslySetInnerHTML" lastValue nextValue isSVG
    hasControlledValue lastVNode h
  = (Normal lastVNode, h).
Proof.
  intros Hdelegated Hskip Hboolean Hstrict Hpresent Hhtml.
  unfold patchProp.
  destruct (strict_neq lastValue nextValue); [|reflexivity].
  rewrite Hdelegated, Hskip, Hboolean, Hstrict, Hpresent,
    (strict_neq_false _ _ Hhtml).
  simpl. rewrite andb_false_r. reflexivity.
Qed.

(** ** The unit rule of styles *)

Lemma bind_normal {A B : Type} (m : M A) (k : A -> M B) (h h' : Heap) (a : A) :
  m h = (Normal a, h') -> bind m k h = k a h'.
Proof. unfold bind. intros ->. reflexivity. Qed.

Lemma unit_rule_with_unit (style : string) (v : value) :
  (if negb (isNumber v) || has isUnitlessNumber style
   then v else plus_string v "px")
  = with_unit (has isUnitlessNumber style) v.
Proof.
  destruct v; unfold with_unit, plus_string; simpl;
    destruct (has isUnitlessNumber style); reflexivity.
Qed.

(** ** Removal *)

Lemma patchEvent_absent_returns (name : string) (lastValue : value) (h : Heap) :
  exists h' : Heap, patchEvent name lastValue VNull h = (Normal tt, h').
Proof.
  unfold patchEvent. cbn [isFunction typeof_function isNullOrUndef negb andb].
  unfold bind at 1, getProperty.
  set (domEvent := default VUndefined (properties (dom h) !! toLowerCase name)).
  destruct (truthy domEvent) eqn:Htruthy; cbn [negb].
  - unfold member. rewrite (truthy_not_absent _ Htruthy). run.
    destruct (negb (truthy (assoc "wrapped" (members_of domEvent))));
      run; eauto.
  - run. eauto.
Qed.

(** C1, as the code has it.  For a previous value other than [null] and a
    name other than ["value"] and ["dangerouslySetInnerHTML"] that is either
    a delegated event (and not ["style"]) or in none of the skip, boolean
    and strict tables, [removeProp] does to the element exactly what
    [patchProp] does with [null] as the next value.  For a delegated event
    both make the one call [handleEvent(prop, null, dom)] and touch neither
    a property nor an attribute. *)
Theorem removeProp_as_patchProp_null
    (prop : string) (lastValue : value) (nextFlags : Z)
    (isSVG hasControlledValue : bool) (lastVNode : option VNode) (h : Heap) :
  strict_eq lastValue VNull = false ->
  prop <> "value" ->
  prop <> "dangerouslySetInnerHTML" ->
  (has delegatedEvents prop = true /\ prop <> "style")
  \/ (has delegatedEvents prop = false /\ has skipProps prop = false
      /\ has booleanProps prop = false /\ has strictProps prop = false) ->
  exists h' : Heap,
    removeProp prop lastValue nextFlags h = (Normal tt, h')
    /\ patchProp prop lastValue VNull isSVG hasControlledValue lastVNode h
       = (Normal lastVNode, h')
    /\ (if has delegatedEvents prop
        then dom h' = dom h
             /\ effects h' = effects h ++ [HandleEvent prop VNull]
        else True).
Proof.
  intros Hchanged Hvalue Hhtml Hclass.
  apply String.eqb_neq in Hvalue, Hhtml.
  unfold removeProp, patchProp.
  rewrite (strict_neq_true _ _ Hchanged), Hvalue, Hhtml, andb_false_r.
  destruct Hclass as [[Hdelegated Hstyle]
                     |(Hdelegated & Hskip & Hboolean & Hstrict)].
  - apply String.eqb_neq in Hstyle. rewrite Hstyle, Hdelegated.
    run. eexists. repeat split; reflexivity.
  - rewrite Hdelegated, Hskip, Hboolean, Hstrict. cbn [orb isNullOrUndef].
    destruct (String.eqb prop "style") eqn:Hstyle.
    + apply String.eqb_eq in Hstyle. subst prop. run.
      eexists. repeat split; reflexivity.
    + destruct (isAttrAnEvent prop).
      * destruct (patchEvent_absent_returns prop lastValue h) as [h' Hrun].
        exists h'. unfold bind. rewrite Hrun. repeat split; reflexivity.
      * run. eexists. repeat split; reflexivity.
Qed.

End Properties.

(** * Further properties of the reconciler *)

Section Dispatch.

Context `{imports : Imports}.

Local Open Scope string_scope.
Local Open Scope list_scope.

Ltac run :=
  repeat (unfold bind, ret, throw, emit, update_dom, read_dom, member,
            getProperty, setProperty, setStyleProperty, removeAttribute,
            setAttribute, setAttributeNS, handleEvent, unmount,
            unmountAllChildren, createLinkEvent, throwError;
          simpl).

(** ** The order of the categories in [patchProp] *)

(** X1.  A delegated-event name goes to the delegation subsystem and nowhere
    else, whatever the other tables, the controlled flag and the namespace
    flag say about it: one call [handleEvent(prop, nextValue, dom)], the
    element untouched. *)
Theorem patchProp_delegated
    (prop : string) (lastValue nextValue : value)
    (isSVG hasControlledValue : bool) (lastVNode : option VNode) (h : Heap) :
  has delegatedEvents prop = true ->
  strict_eq lastValue nextValue = false ->
  patchProp prop lastValue nextValue isSVG hasControlledValue lastVNode h
  = (Normal lastVNode, recorded (HandleEvent prop nextValue) h).
Proof.
  intros Hdelegated Hchanged. unfold patchProp.
  rewrite (strict_neq_true _ _ Hchanged), Hdelegated. reflexivity.
Qed.

(** X2.  A skipped name, and ["value"] on an element whose value is controlled,
    change nothing, whatever the values, unless the name is a delegated
    event. *)
Theorem patchProp_skipped
    (prop : string) (lastValue nextValue : value)
    (isSVG hasControlledValue : bool) (lastVNode : option VNode) (h : Heap) :
  has delegatedEvents prop = false ->
  has skipProps prop || (hasControlledValue && String.eqb prop "value") = true ->
  patchProp prop lastValue nextValue isSVG hasControlledValue lastVNode h
  = (Normal lastVNode, h).
Proof.
  intros Hdelegated Hskip. unfold patchProp.
  rewrite Hdelegated, Hskip. destruct (strict_neq lastValue nextValue);
    reflexivity.
Qed.

(** X3.  For a name that is in no table and is not an event name, an absent
    next value removes the attribute of that name.  This comes before the
    style and raw-HTML cases: ["style"] and ["dangerouslySetInnerHTML"] set
    to [null] or [undefined] remove an attribute too, and neither clear
    style keys nor touch the markup. *)
Theorem patchProp_absent_removes_attribute
    (prop : string) (lastValue nextValue : value)
    (isSVG hasControlledValue : bool) (lastVNode : option VNode) (h : Heap) :
  has delegatedEvents prop = false ->
  has skipProps prop || (hasControlledValue && String.eqb prop "value") = false ->
  has booleanProps prop = false ->
  has strictProps prop = false ->
  isAttrAnEvent prop = false ->
  isNullOrUndef nextValue = true ->
  strict_eq lastValue nextValue = false ->
  patchProp prop lastValue nextValue isSVG hasControlledValue lastVNode h
  = (Normal lastVNode, recorded (RemoveAttribute prop) h).
Proof.
  intros Hdelegated Hskip Hboolean Hstrict Hevent Habsent Hchanged.
  unfold patchProp.
  rewrite (strict_neq_true _ _ Hchanged), Hdelegated, Hskip, Hboolean,
    Hstrict, Hevent, Habsent.
  reflexivity.
Qed.

(** X4.  For a name that is in no table, is not an event name and is neither
    ["style"] nor ["dangerouslySetInnerHTML"], a next value that is present
    is set as an attribute and nothing else happens: with the namespace of
    the name when the element is SVG and the name has one, and plainly
    otherwise; outside SVG the namespaces are not consulted. *)
Theorem patchProp_attribute
    (prop : string) (lastValue nextValue : value)
    (isSVG hasControlledValue : bool) (lastVNode : option VNode) (h : Heap) :
  has delegatedEvents prop = false ->
  has skipProps prop || (hasControlledValue && String.eqb prop "value") = false ->
  has booleanProps prop = false ->
  has strictProps prop = false ->
  isAttrAnEvent prop = false ->
  prop <> "style" ->
  prop <> "dangerouslySetInnerHTML" ->
  isNullOrUndef nextValue = false ->
  strict_eq lastValue nextValue = false ->
  patchProp prop lastValue nextValue isSVG hasControlledValue lastVNode h
  = (Normal lastVNode,
     recorded
       (match (if isSVG then namespaces !! prop else None) with
        | Some ns => SetAttributeNS ns prop nextValue
        | None => SetAttribute prop nextValue
        end) h).
Proof.
  intros Hdelegated Hskip Hboolean Hstrict Hevent Hstyle Hhtml Hpresent
    Hchanged.
  apply String.eqb_neq in Hstyle, Hhtml. unfold patchProp.
  rewrite (strict_neq_true _ _ Hchanged), Hdelegated, Hskip, Hboolean,
    Hstrict, Hevent, Hpresent, Hstyle, Hhtml.
  unfold has_key, get. destruct isSVG; cbn [andb]; [|reflexivity].
  destruct (namespaces !! prop) as [ns|]; reflexivity.
Qed.

(** ** Composing computations *)

Section Composition.

Context {A B : Type}.

Lemma returns_ret (a : A) : returns (ret a).
Proof. intros h. exists a, h. reflexivity. Qed.

Lemma returns_bind (m : M A) (k : A -> M B) :
  returns m -> (forall a : A, returns (k a)) -> returns (bind m k).
Proof.
  intros Hm Hk h. destruct (Hm h) as (a & h' & Hrun).
  unfold bind. rewrite Hrun. apply Hk.
Qed.

Lemma returns_atomic (m : M A) : returns m -> atomic m.
Proof.
  intros Hm h h' message Hthrown.
  destruct (Hm h) as (a & h'' & Hrun). congruence.
Qed.

Lemma atomic_bind_returns (m : M A) (k : A -> M B) :
  atomic m -> (forall a : A, returns (k a)) -> atomic (bind m k).
Proof.
  intros Hm Hk h h' message. unfold bind.
  destruct (m h) as [[a|e] h1] eqn:Hrun.
  - destruct (Hk a h1) as (b & h2 & Hrun'). congruence.
  - intros [= <- <-]. exact (Hm _ _ _ Hrun).
Qed.

Variable R : Heap -> Heap -> Prop.
Hypothesis R_refl : forall h : Heap, R h h.
Hypothesis R_trans : forall h1 h2 h3 : Heap, R h1 h2 -> R h2 h3 -> R h1 h3.

Lemma keeps_ret (a : A) : keeps R (ret a).
Proof. intros h. apply R_refl. Qed.

Lemma keeps_throw (message : string) : keeps R (@throw A message).
Proof. intros h. apply R_refl. Qed.

Lemma keeps_bind (m : M A) (k : A -> M B) :
  keeps R m -> (forall a : A, keeps R (k a)) -> keeps R (bind m k).
Proof.
  intros Hm Hk h. unfold bind. specialize (Hm h).
  destruct (m h) as [[a|e] h1]; simpl in *; [|exact Hm].
  exact (R_trans _ _ _ Hm (Hk a h1)).
Qed.

End Composition.

Lemma returns_for_each (ks : list string) (body : string -> M unit) :
  (forall k : string, returns (body k)) -> returns (for_each ks body).
Proof.
  intros Hbody. induction ks as [|k ks IH]; simpl.
  - apply returns_ret.
  - apply returns_bind; [apply Hbody|intros _; exact IH].
Qed.

Lemma keeps_for_each (R : Heap -> Heap -> Prop) (ks : list string)
    (body : string -> M unit) :
  (forall h : Heap, R h h) ->
  (forall h1 h2 h3 : Heap, R h1 h2 -> R h2 h3 -> R h1 h3) ->
  (forall k : string, keeps R (body k)) -> keeps R (for_each ks body).
Proof.
  intros Hrefl Htrans Hbody. induction ks as [|k ks IH]; simpl.
  - apply keeps_ret; assumption.
  - apply keeps_bind; [assumption|apply Hbody|intros _; exact IH].
Qed.

Lemma member_present (o : value) (k : string) :
  isNullOrUndef o = false -> member o k = ret (lookup o k).
Proof. unfold member. intros ->. reflexivity. Qed.

Lemma has_own_mem (k : string) (ms : list (string * value)) :
  has_own k ms = mem k (map fst ms).
Proof. induction ms as [|[k' v] ms IH]; simpl; congruence. Qed.

(** An own member shadows what is inherited. *)
Lemma lookup_own (o : value) (k : string) :
  mem k (keys o) = true -> lookup o k = assoc k (members_of o).
Proof.
  intros Hown. unfold lookup.
  destruct (existsb (String.eqb k) Object_prototype); [|reflexivity].
  destruct o; try reflexivity.
  unfold keys in Hown. simpl in Hown. rewrite has_own_mem, Hown. reflexivity.
Qed.

(** A name that [Object.prototype] does not have is read of the own
    members. *)
Lemma lookup_named (o : value) (k : string) :
  existsb (String.eqb k) Object_prototype = false ->
  lookup o k = assoc k (members_of o).
Proof. intros Hnamed. unfold lookup. rewrite Hnamed. reflexivity. Qed.

Lemma member_named (o : value) (k : string) :
  existsb (String.eqb k) Object_prototype = false ->
  isNullOrUndef o = false -> member o k = ret (assoc k (members_of o)).
Proof.
  intros Hnamed Hpresent.
  rewrite (member_present _ _ Hpresent), (lookup_named _ _ Hnamed).
  reflexivity.
Qed.

Lemma member_own (o : value) (k : string) :
  mem k (keys o) = true -> member o k = ret (assoc k (members_of o)).
Proof.
  intros Hown. rewrite member_present, (lookup_own _ _ Hown); [reflexivity|].
  destruct o; try reflexivity; discriminate.
Qed.

(** ** Lower-casing of event names *)

Lemma lower_idempotent (c : ascii) : lower (lower c) = lower c.
Proof.
  destruct c as [[] [] [] [] [] [] [] []]; reflexivity.
Qed.

(** [onClick] and [onclick] name the same slot: lower-casing twice is
    lower-casing once, and a lower-cased event name is an event name. *)
Lemma toLowerCase_idempotent (s : string) :
  toLowerCase (toLowerCase s) = toLowerCase s.
Proof.
  induction s as [|c s IH]; simpl; [reflexivity|].
  rewrite lower_idempotent, IH. reflexivity.
Qed.

Lemma isAttrAnEvent_prefix (attr : string) :
  isAttrAnEvent attr = true <-> exists rest : string, attr = "on" +:+ rest.
Proof.
  split.
  - destruct attr as [|c0 [|c1 rest]]; simpl; try discriminate.
    intros H. apply andb_true_iff in H as [H0 H1].
    apply Ascii.eqb_eq in H0, H1. subst. exists rest. reflexivity.
  - intros [rest ->]. reflexivity.
Qed.

Lemma isAttrAnEvent_lower (attr : string) :
  isAttrAnEvent attr = true -> isAttrAnEvent (toLowerCase attr) = true.
Proof.
  intros H. apply isAttrAnEvent_prefix in H as [rest ->]. reflexivity.
Qed.

Lemma event_slot_not_value (attr : string) :
  isAttrAnEvent attr = true -> toLowerCase attr <> "value".
Proof.
  intros H. apply isAttrAnEvent_prefix in H as [rest ->]. discriminate.
Qed.

(** ** The event adapter *)

Lemma patchEvent_violation
    (name : string) (lastValue nextValue : value) (h : Heap) :
  isFunction nextValue = false ->
  isNullOrUndef nextValue = false ->
  truthy (assoc "event" (members_of nextValue))
  && isFunction (assoc "event" (members_of nextValue)) = false ->
  patchEvent name lastValue nextValue h
  = (if production then Normal tt
     else Thrown ("an event on a VNode " +:+ dquote +:+ name +:+ dquote
                  +:+ ". was not a function or a valid linkEvent."),
     h).
Proof.
  intros Hobject Hpresent Hinvalid. unfold patchEvent.
  rewrite Hobject, Hpresent, (member_named _ "event" eq_refl Hpresent). run.
  rewrite Hinvalid. destruct production; reflexivity.
Qed.

(** X5.  A next value that is neither a function, nor absent, nor an object
    whose [event] member is a function, is a contract violation: in a
    development build [patchEvent] throws the warning and changes nothing;
    in a production build it silently does nothing. *)
Theorem patchEvent_invalid
    (name : string) (lastValue nextValue : value) (h : Heap) :
  isFunction nextValue = false ->
  isNullOrUndef nextValue = false ->
  truthy (assoc "event" (members_of nextValue))
  && isFunction (assoc "event" (members_of nextValue)) = false ->
  patchEvent name lastValue nextValue h
  = (if production then Normal tt
     else Thrown ("an event on a VNode " +:+ dquote +:+ name +:+ dquote
                  +:+ ". was not a function or a valid linkEvent."),
     h).
Proof. apply patchEvent_violation. Qed.

Lemma patchEvent_plain
    (name : string) (lastValue nextValue : value) (h : Heap) :
  isFunction nextValue || isNullOrUndef nextValue = true ->
  patchEvent name lastValue nextValue h
  = (Normal tt,
     if truthy (default VUndefined (properties (dom h) !! toLowerCase name))
        && truthy (assoc "wrapped"
                     (members_of
                        (default VUndefined
                           (properties (dom h) !! toLowerCase name))))
     then h else written (toLowerCase name) nextValue h).
Proof.
  intros Hnext. unfold patchEvent.
  replace (negb (isFunction nextValue) && negb (isNullOrUndef nextValue))
    with false
    by (destruct (isFunction nextValue), (isNullOrUndef nextValue);
        simpl in *; congruence).
  unfold bind at 1, getProperty.
  set (domEvent := default VUndefined (properties (dom h) !! toLowerCase name))
    in *.
  destruct (truthy domEvent) eqn:Htruthy; cbn [negb andb] in *.
  - rewrite (member_named _ "wrapped" eq_refl (truthy_not_absent _ Htruthy)). run.
    destruct (truthy (assoc "wrapped" (members_of domEvent))); reflexivity.
  - reflexivity.
Qed.

(** X6.  A plain function, [null] or [undefined] is assigned to the lower-cased
    slot as it is, when what the slot holds is falsy or carries no truthy
    [wrapped] marker: [null] clears the handler. *)
Theorem patchEvent_installs
    (name : string) (lastValue nextValue : value) (h : Heap) :
  isFunction nextValue || isNullOrUndef nextValue = true ->
  truthy (default VUndefined (properties (dom h) !! toLowerCase name))
  && truthy (assoc "wrapped"
               (members_of
                  (default VUndefined
                     (properties (dom h) !! toLowerCase name)))) = false ->
  patchEvent name lastValue nextValue h
  = (Normal tt, written (toLowerCase name) nextValue h).
Proof.
  intros Hnext Hslot. rewrite (patchEvent_plain _ _ _ _ Hnext), Hslot.
  reflexivity.
Qed.

(** What a call of [patchEvent] can come to: nothing, one write to the
    lower-cased slot (of a listener made on the spot, for a linked event),
    or the development warning, thrown before anything is changed. *)
Lemma patchEvent_outcome
    (name : string) (lastValue nextValue : value) (h : Heap) :
  patchEvent name lastValue nextValue h = (Normal tt, h)
  \/ patchEvent name lastValue nextValue h
     = (Normal tt, written (toLowerCase name) nextValue h)
  \/ patchEvent name lastValue nextValue h
     = (Normal tt,
        written (toLowerCase name)
          (VLinkEventListener (fresh h)
             (assoc "event" (members_of nextValue)) nextValue)
          {| dom := dom h; effects := effects h; fresh := S (fresh h) |})
  \/ (production = false
      /\ exists message : string,
           patchEvent name lastValue nextValue h = (Thrown message, h)).
Proof.
  destruct (negb (isFunction nextValue) && negb (isNullOrUndef nextValue))
    eqn:Hlinked.
  - apply andb_true_iff in Hlinked as [Hobject Hpresent].
    apply negb_true_iff in Hobject, Hpresent.
    destruct (truthy (assoc "event" (members_of nextValue))
              && isFunction (assoc "event" (members_of nextValue)))
      eqn:Hvalid.
    + right. right. left. unfold patchEvent.
      rewrite Hobject, Hpresent, (member_named _ "event" eq_refl Hpresent). run.
      rewrite Hvalid. reflexivity.
    + rewrite (patchEvent_violation _ _ _ _ Hobject Hpresent Hvalid).
      destruct production; [left; reflexivity|].
      right. right. right. eauto.
  - assert (Hnext : isFunction nextValue || isNullOrUndef nextValue = true)
      by (destruct (isFunction nextValue), (isNullOrUndef nextValue);
          simpl in *; congruence).
    rewrite (patchEvent_plain _ _ _ _ Hnext).
    match goal with
    | |- context [if ?c then _ else _] => destruct c
    end; [left|right; left]; reflexivity.
Qed.

Lemma patchEvent_linked
    (name : string) (lastValue nextValue : value) (h : Heap) :
  isFunction nextValue = false ->
  isNullOrUndef nextValue = false ->
  truthy (assoc "event" (members_of nextValue))
  && isFunction (assoc "event" (members_of nextValue)) = true ->
  patchEvent name lastValue nextValue h
  = (Normal tt,
     written (toLowerCase name)
       (VLinkEventListener (fresh h)
          (assoc "event" (members_of nextValue)) nextValue)
       (allocated h)).
Proof.
  intros Hobject Hpresent Hvalid. unfold patchEvent.
  rewrite Hobject, Hpresent, (member_named _ "event" eq_refl Hpresent). run.
  rewrite Hvalid. reflexivity.
Qed.

(** X7.  A linked event is never compared with what the slot holds: applying
    the same linked event two times in a row makes and assigns a listener
    each time, and the second listener is not [===] the first. *)
Theorem patchEvent_linked_event_renewed
    (name : string) (lastValue lastValue' nextValue : value) (h : Heap) :
  isFunction nextValue = false ->
  isNullOrUndef nextValue = false ->
  truthy (assoc "event" (members_of nextValue))
  && isFunction (assoc "event" (members_of nextValue)) = true ->
  exists (first second : value) (h1 h2 : Heap),
    patchEvent name lastValue nextValue h = (Normal tt, h1)
    /\ patchEvent name lastValue' nextValue h1 = (Normal tt, h2)
    /\ effects h2
       = effects h ++ [SetProperty (toLowerCase name) first;
                       SetProperty (toLowerCase name) second]
    /\ properties (dom h2) !! toLowerCase name = Some second
    /\ strict_eq first second = false.
Proof.
  intros Hobject Hpresent Hvalid.
  do 4 eexists. rewrite (patchEvent_linked _ _ _ h Hobject Hpresent Hvalid).
  split; [reflexivity|].
  rewrite (patchEvent_linked _ _ _ _ Hobject Hpresent Hvalid).
  split; [reflexivity|]. simpl. rewrite <- app_assoc, lookup_insert_eq.
  split; [reflexivity|]. split; [reflexivity|].
  apply Nat.eqb_neq. lia.
Qed.

(** X8.  The case of the letters of an event name does not matter to what
    [patchEvent] does to the element: [onClick] and [onclick] are the same
    slot.  (The text of the development warning quotes the name as
    given.) *)
Theorem patchEvent_case_insensitive
    (name : string) (lastValue nextValue : value) (h : Heap) :
  snd (patchEvent (toLowerCase name) lastValue nextValue h)
  = snd (patchEvent name lastValue nextValue h).
Proof.
  unfold patchEvent. rewrite toLowerCase_idempotent.
  destruct (negb (isFunction nextValue) && negb (isNullOrUndef nextValue));
    [|reflexivity].
  unfold bind at 1 3. destruct (member nextValue "event" h) as [[le|e] h1];
    [|reflexivity].
  destruct (truthy le && isFunction le); [reflexivity|].
  destruct (negb production); reflexivity.
Qed.

(** X9.  [patchEvent] writes no live property but the lower-cased slot, and no
    style, whatever it is given and however it ends. *)
Theorem patchEvent_frame
    (name : string) (lastValue nextValue : value) (k : string) (h : Heap) :
  k <> toLowerCase name ->
  properties (dom (snd (patchEvent name lastValue nextValue h))) !! k
  = properties (dom h) !! k
  /\ style (dom (snd (patchEvent name lastValue nextValue h)))
     = style (dom h).
Proof.
  intros Hother.
  destruct (patchEvent_outcome name lastValue nextValue h)
    as [-> | [-> | [-> | [_ [message ->]]]]]; simpl;
    rewrite ?lookup_insert_ne by congruence; auto.
Qed.

Lemma patchEvent_atomic (name : string) (lastValue nextValue : value) :
  atomic (patchEvent name lastValue nextValue).
Proof.
  intros h h' message.
  destruct (patchEvent_outcome name lastValue nextValue h)
    as [-> | [-> | [-> | [_ [message' ->]]]]]; congruence.
Qed.

Lemma patchEvent_returns_in_production
    (name : string) (lastValue nextValue : value) :
  production = true -> returns (patchEvent name lastValue nextValue).
Proof.
  intros Hproduction h.
  destruct (patchEvent_outcome name lastValue nextValue h)
    as [-> | [-> | [-> | [Hdev _]]]]; eauto; congruence.
Qed.

(** ** The style reconciler, for any number of keys *)

Lemma for_each_ext (ks : list string) (body body' : string -> M unit) :
  (forall (k : string) (h : Heap), body k h = body' k h) ->
  forall h : Heap, for_each ks body h = for_each ks body' h.
Proof.
  intros Hbody. induction ks as [|k ks IH]; intros h; simpl; [reflexivity|].
  unfold bind. rewrite Hbody. destruct (body' k h) as [[[]|e] h1]; auto.
Qed.

Lemma for_each_ext_in (ks : list string) (body body' : string -> M unit) :
  (forall k : string, mem k ks = true ->
     forall h : Heap, body k h = body' k h) ->
  forall h : Heap, for_each ks body h = for_each ks body' h.
Proof.
  induction ks as [|k ks IH]; intros Hbody h; [reflexivity|].
  simpl. unfold bind.
  rewrite (Hbody k) by (simpl; rewrite String.eqb_refl; reflexivity).
  destruct (body' k h) as [[[]|e] h1]; [|reflexivity].
  apply IH. intros k' Hk'. apply Hbody. simpl. rewrite Hk'. apply orb_true_r.
Qed.

(** A loop of guarded style writes: the writes happen in the order of the
    names, and a name holds at the end what was written to it. *)
Lemma for_each_style_writes
    (c : string -> bool) (f : string -> value) (ks : list string) :
  forall h : Heap,
  exists h' : Heap,
    for_each ks (fun k => if c k then setStyleProperty k (f k) else ret tt) h
    = (Normal tt, h')
    /\ effects h'
       = effects h ++ map (fun k => SetStyleProperty k (f k)) (List.filter c ks)
    /\ properties (dom h') = properties (dom h)
    /\ fresh h' = fresh h
    /\ forall k : string,
         style (dom h') !! k
         = if mem k ks && c k then Some (f k) else style (dom h) !! k.
Proof.
  induction ks as [|k0 ks IH]; intros h.
  - exists h. simpl. rewrite app_nil_r. auto.
  - cbn [for_each]. unfold bind at 1.
    destruct (c k0) eqn:Hc.
    + destruct (IH (styled k0 (f k0) h))
        as (h' & Hrun & Heffects & Hproperties & Hfresh & Hstyle).
      exists h'. split; [exact Hrun|]. split; [|split; [|split]]; auto.
      * rewrite Heffects. cbn [List.filter]. rewrite Hc. simpl.
        rewrite <- app_assoc. reflexivity.
      * intros k. rewrite Hstyle. cbn [mem existsb]. fold (mem k ks).
        destruct (mem k ks && c k) eqn:Hlater.
        -- rewrite orb_comm. apply andb_true_iff in Hlater as [-> ->].
           reflexivity.
        -- simpl. destruct (String.eqb k k0) eqn:Hk.
           ++ apply String.eqb_eq in Hk. subst k0.
              rewrite Hc, lookup_insert_eq. reflexivity.
           ++ apply String.eqb_neq in Hk.
              rewrite lookup_insert_ne by congruence.
              cbn [orb]. rewrite Hlater. reflexivity.
    + destruct (IH h) as (h' & Hrun & Heffects & Hproperties & Hfresh & Hstyle).
      exists h'. split; [exact Hrun|]. split; [|split; [|split]]; auto.
      * rewrite Heffects. cbn [List.filter]. rewrite Hc. reflexivity.
      * intros k. rewrite Hstyle. cbn [mem existsb]. fold (mem k ks).
        destruct (String.eqb k k0) eqn:Hk; [|reflexivity].
        apply String.eqb_eq in Hk. subst k0. rewrite Hc, !andb_false_r.
        reflexivity.
Qed.

Lemma filter_all (ks : list string) : List.filter (fun _ => true) ks = ks.
Proof. induction ks as [|k ks IH]; simpl; congruence. Qed.

Lemma keys_present (o : value) :
  keys o <> [] -> isNullOrUndef o = false.
Proof. destruct o; unfold keys; simpl; intros H; congruence. Qed.

Lemma map_filter_ext_in {A : Type} (f g : string -> A) (c d : string -> bool)
    (ks : list string) :
  (forall k : string, mem k ks = true -> f k = g k /\ c k = d k) ->
  map f (List.filter c ks) = map g (List.filter d ks).
Proof.
  induction ks as [|k ks IH]; intros Hext; [reflexivity|].
  destruct (Hext k) as [Hf Hc];
    [simpl; rewrite String.eqb_refl; reflexivity|].
  simpl. rewrite <- Hc.
  assert (Hrest : map f (List.filter c ks) = map g (List.filter d ks)).
  { apply IH. intros k' Hk'. apply Hext. simpl. rewrite Hk'.
    apply orb_true_r. }
  destruct (c k); simpl; congruence.
Qed.

Lemma patchStyle_scratch_run
    (lastAttrValue nextAttrValue : value) (h : Heap) :
  isString nextAttrValue = false ->
  isNullOrUndef lastAttrValue || isString lastAttrValue = true ->
  let write := fun k =>
    with_unit (has isUnitlessNumber k) (assoc k (members_of nextAttrValue)) in
  exists h' : Heap,
    patchStyle lastAttrValue nextAttrValue h = (Normal tt, h')
    /\ effects h'
       = effects h
         ++ map (fun k => SetStyleProperty k (write k)) (keys nextAttrValue)
    /\ properties (dom h') = properties (dom h)
    /\ forall k : string,
         style (dom h') !! k
         = if mem k (keys nextAttrValue) then Some (write k)
           else style (dom h) !! k.
Proof.
  intros Hobject Hlast write. unfold patchStyle. rewrite Hobject.
  replace (negb (isNullOrUndef lastAttrValue) && negb (isString lastAttrValue))
    with false
    by (destruct (isNullOrUndef lastAttrValue), (isString lastAttrValue);
        simpl in *; congruence).
  destruct (for_each_style_writes (fun _ => true) write (keys nextAttrValue) h)
    as (h' & Hrun & Heffects & Hproperties & _ & Hstyle).
  exists h'. split; [|split; [|split]]; auto.
  - rewrite <- Hrun. unfold for_in. fold (keys nextAttrValue).
    apply for_each_ext_in. intros k Hk h0.
    rewrite (member_own _ _ Hk). unfold bind, ret.
    rewrite unit_rule_with_unit. reflexivity.
  - rewrite Heffects, filter_all. reflexivity.
  - intros k. rewrite Hstyle, andb_true_r. reflexivity.
Qed.

Lemma patchStyle_structured_run
    (lastAttrValue nextAttrValue : value) (h : Heap) :
  isString nextAttrValue = false ->
  isNullOrUndef nextAttrValue = false ->
  isString lastAttrValue = false ->
  isNullOrUndef lastAttrValue = false ->
  let changed := fun k =>
    strict_neq (lookup nextAttrValue k) (lookup lastAttrValue k) in
  let write := fun k =>
    with_unit (has isUnitlessNumber k) (lookup nextAttrValue k) in
  let dropped := fun k => isNullOrUndef (lookup nextAttrValue k) in
  exists h' : Heap,
    patchStyle lastAttrValue nextAttrValue h = (Normal tt, h')
    /\ effects h'
       = effects h
         ++ map (fun k => SetStyleProperty k (write k))
              (List.filter changed (keys nextAttrValue))
         ++ map (fun k => SetStyleProperty k (VString EmptyString))
              (List.filter dropped (keys lastAttrValue))
    /\ properties (dom h') = properties (dom h)
    /\ forall k : string,
         style (dom h') !! k
         = if mem k (keys lastAttrValue) && dropped k
           then Some (VString EmptyString)
           else if mem k (keys nextAttrValue) && changed k
           then Some (write k)
           else style (dom h) !! k.
Proof.
  intros Hobject Hpresent Hobject' Hpresent' changed write dropped.
  unfold patchStyle. rewrite Hobject, Hobject', Hpresent'. cbn [negb andb].
  destruct (for_each_style_writes changed write (keys nextAttrValue) h)
    as (h1 & Hrun1 & Heffects1 & Hproperties1 & _ & Hstyle1).
  destruct (for_each_style_writes dropped (fun _ => VString EmptyString)
              (keys lastAttrValue) h1)
    as (h' & Hrun & Heffects & Hproperties & _ & Hstyle).
  exists h'. split; [|split; [|split]].
  - erewrite bind_normal with (h' := h1) (a := tt).
    + rewrite <- Hrun. unfold for_in. apply for_each_ext. intros k h0.
      rewrite (member_present _ _ Hpresent). reflexivity.
    + rewrite <- Hrun1. unfold for_in. apply for_each_ext. intros k h0.
      rewrite (member_present _ _ Hpresent), (member_present _ _ Hpresent').
      unfold bind, ret. rewrite unit_rule_with_unit. reflexivity.
  - rewrite Heffects, Heffects1, <- app_assoc. reflexivity.
  - congruence.
  - intros k. rewrite Hstyle, Hstyle1. reflexivity.
Qed.

Lemma clears_are_clears (ks : list string) :
  Forall is_clear (map (fun k => SetStyleProperty k (VString EmptyString)) ks).
Proof.
  induction ks as [|k ks IH]; simpl; constructor;
    [exists k; reflexivity|exact IH].
Qed.

(** C6.  For a next style object with any keys and a previous style that
    is absent, a string or a plain object: [patchStyle] first writes the
    keys of the next style, in enumeration order: all of them if the
    previous style is absent or a string, and otherwise those whose value is
    not [===] the previous one.  What it writes for a key is the value
    itself when the value is not numeric or the key is unitless, and the
    text of the number followed by ["px"] otherwise.  Every later write only
    clears a key.  The number [10] is written as [10] (the string ["10"])
    for a unitless key and as ["10px"] for any other key; [0.5] becomes
    ["0.5px"] and [1e21] becomes ["1e+21px"]. *)
Theorem patchStyle_unit_rule
    (lastAttrValue : value) (r : nat) (ms : list (string * value)) (h : Heap) :
  plain_style lastAttrValue = true ->
  exists (clears : list effect) (h' : Heap),
    patchStyle lastAttrValue (VObject r ms) h = (Normal tt, h')
    /\ effects h'
       = effects h
         ++ map (fun k => SetStyleProperty k
                            (with_unit (has isUnitlessNumber k) (assoc k ms)))
              (List.filter
                 (fun k => isNullOrUndef lastAttrValue
                           || isString lastAttrValue
                           || strict_neq (assoc k ms) (lookup lastAttrValue k))
                 (map fst ms))
         ++ clears
    /\ Forall is_clear clears
    /\ with_unit true (VNumber 10) = VNumber 10
    /\ ToString (VNumber 10) = Some "10"
    /\ with_unit false (VNumber 10) = VString "10px"
    /\ with_unit false (VOtherNumber "0.5") = VString "0.5px"
    /\ with_unit false (VNumber (10 ^ 21)%Z) = VString "1e+21px"
    /\ (forall (v : value) (unitless : bool),
          if isNumber v then True else with_unit unitless v = v).
Proof.
  intros Hplain.
  assert (Hfacts :
    with_unit true (VNumber 10) = VNumber 10
    /\ ToString (VNumber 10) = Some "10"
    /\ with_unit false (VNumber 10) = VString "10px"
    /\ with_unit false (VOtherNumber "0.5") = VString "0.5px"
    /\ with_unit false (VNumber (10 ^ 21)%Z) = VString "1e+21px"
    /\ (forall (v : value) (unitless : bool),
          if isNumber v then True else with_unit unitless v = v)).
  { do 5 (split; [vm_compute; reflexivity|]).
    intros v unitless. destruct v; reflexivity || exact I. }
  destruct (isNullOrUndef lastAttrValue || isString lastAttrValue)
    eqn:Hlast.
  - destruct (patchStyle_scratch_run lastAttrValue (VObject r ms) h eq_refl
                Hlast)
      as (h' & Hrun & Heffects & _ & _).
    exists [], h'. split; [exact Hrun|]. split; [|split; [constructor|]];
      [|exact Hfacts].
    rewrite Heffects, app_nil_r. cbn [orb]. rewrite filter_all. reflexivity.
  - assert (Hobject : isString lastAttrValue = false
                      /\ isNullOrUndef lastAttrValue = false)
      by (destruct lastAttrValue; simpl in *; auto; discriminate).
    destruct Hobject as [Hobject Hpresent].
    destruct (patchStyle_structured_run lastAttrValue (VObject r ms) h eq_refl
                eq_refl Hobject Hpresent)
      as (h' & Hrun & Heffects & _ & _).
    eexists _, h'. split; [exact Hrun|]. split; [|split; [|exact Hfacts]].
    + rewrite Heffects. f_equal. f_equal. cbn [orb].
      apply map_filter_ext_in. intros k Hk.
      rewrite (lookup_own (VObject r ms) k Hk). auto.
    + apply clears_are_clears.
Qed.

(** X10.  With no structured previous style (absent, or a style string), every
    key of the next style object is written once, in enumeration order,
    under the unit rule; the other style keys and the live properties are
    left alone, and a key of the object holds its value at the end. *)
Theorem patchStyle_from_scratch
    (lastAttrValue nextAttrValue : value) (h : Heap) :
  isString nextAttrValue = false ->
  isNullOrUndef lastAttrValue || isString lastAttrValue = true ->
  let write := fun k =>
    with_unit (has isUnitlessNumber k) (assoc k (members_of nextAttrValue)) in
  exists h' : Heap,
    patchStyle lastAttrValue nextAttrValue h = (Normal tt, h')
    /\ effects h'
       = effects h
         ++ map (fun k => SetStyleProperty k (write k)) (keys nextAttrValue)
    /\ properties (dom h') = properties (dom h)
    /\ forall k : string,
         style (dom h') !! k
         = if mem k (keys nextAttrValue) then Some (write k)
           else style (dom h) !! k.
Proof. apply patchStyle_scratch_run. Qed.

(** X11.  Between two plain style objects the reconciler works key by key.
    First every key of the next style whose value is not [===] what the
    previous style has under that key (its own member, or what it inherits
    from [Object.prototype]) is written under the unit rule, then every key
    of the previous style under which the next style has nothing, or
    [null], is set to the empty string; nothing else is written, and a key
    holds at the end the last of these writes, or what it held before. *)
Theorem patchStyle_structured
    (r r' : nat) (last_members next_members : list (string * value))
    (h : Heap) :
  let lastAttrValue := VObject r last_members in
  let nextAttrValue := VObject r' next_members in
  let changed := fun k =>
    strict_neq (lookup nextAttrValue k) (lookup lastAttrValue k) in
  let write := fun k =>
    with_unit (has isUnitlessNumber k) (lookup nextAttrValue k) in
  let dropped := fun k => isNullOrUndef (lookup nextAttrValue k) in
  exists h' : Heap,
    patchStyle lastAttrValue nextAttrValue h = (Normal tt, h')
    /\ effects h'
       = effects h
         ++ map (fun k => SetStyleProperty k (write k))
              (List.filter changed (map fst next_members))
         ++ map (fun k => SetStyleProperty k (VString EmptyString))
              (List.filter dropped (map fst last_members))
    /\ properties (dom h') = properties (dom h)
    /\ forall k : string,
         style (dom h') !! k
         = if mem k (map fst last_members) && dropped k
           then Some (VString EmptyString)
           else if mem k (map fst next_members) && changed k
           then Some (write k)
           else style (dom h) !! k.
Proof.
  exact (patchStyle_structured_run (VObject r last_members)
           (VObject r' next_members) h eq_refl eq_refl eq_refl eq_refl).
Qed.

(** ** What a computation keeps *)

Section Keeps.

Variable R : Heap -> Heap -> Prop.
Hypothesis R_refl : forall h : Heap, R h h.
Hypothesis R_trans : forall h1 h2 h3 : Heap, R h1 h2 -> R h2 h3 -> R h1 h3.

(** Decompose a goal [keeps R m] along the structure of [m]. *)
Ltac compose :=
  repeat
    match goal with
    | |- keeps _ (ret _) => apply keeps_ret; assumption
    | |- keeps _ (throw _) => apply keeps_throw; assumption
    | |- keeps _ (bind _ _) => apply keeps_bind; [assumption| |intros ?]
    | |- keeps _ (if ?c then _ else _) => destruct c eqn:?
    | |- keeps _ (match ?o with Some _ => _ | None => _ end) =>
        destruct o eqn:?
    end.

Lemma keeps_getProperty (k : string) : keeps R (getProperty k).
Proof. intros h. apply R_refl. Qed.

Lemma keeps_read_dom : keeps R read_dom.
Proof. intros h. apply R_refl. Qed.

Lemma keeps_member (o : value) (k : string) : keeps R (member o k).
Proof. unfold member. compose. Qed.

Lemma keeps_emit (e : effect) :
  (forall h : Heap, R h (recorded e h)) -> keeps R (emit e).
Proof. intros He h. apply He. Qed.

Lemma keeps_setProperty (k : string) (v : value) :
  (forall h : Heap, R h (written k v h)) -> keeps R (setProperty k v).
Proof. intros Hk h. apply Hk. Qed.

Lemma keeps_setStyleProperty (k : string) (v : value) :
  (forall h : Heap, R h (styled k v h)) -> keeps R (setStyleProperty k v).
Proof. intros Hk h. apply Hk. Qed.

Lemma keeps_createLinkEvent (linkEvent nextValue : value) :
  (forall h : Heap, R h (allocated h)) ->
  keeps R (createLinkEvent linkEvent nextValue).
Proof. intros Hk h. apply Hk. Qed.

Lemma keeps_patchStyle (lastAttrValue nextAttrValue : value) :
  (forall (k : string) (v : value) (h : Heap), R h (styled k v h)) ->
  keeps R (patchStyle lastAttrValue nextAttrValue).
Proof.
  intros Hstyle. unfold patchStyle, for_in. compose;
    try (apply keeps_setStyleProperty, Hstyle);
    try (apply keeps_for_each; [assumption..|intros k]); compose;
    try apply keeps_member;
    try (apply keeps_setStyleProperty, Hstyle).
Qed.

Lemma keeps_patchEvent (name : string) (lastValue nextValue : value) :
  (forall (v : value) (h : Heap), R h (written (toLowerCase name) v h)) ->
  (forall h : Heap, R h (allocated h)) ->
  keeps R (patchEvent name lastValue nextValue).
Proof.
  intros Hslot Hallocated. unfold patchEvent, throwError. compose;
    try apply keeps_member; try apply keeps_getProperty;
    try (apply keeps_createLinkEvent, Hallocated);
    try (apply keeps_setProperty, Hslot).
Qed.

(** The general shape of what [patchProp] keeps: a relation that holds
    across every effect it may record, every property it may write and
    every style write it may make, holds across the call. *)
Lemma keeps_patchProp
    (prop : string) (lastValue nextValue : value)
    (isSVG hasControlledValue : bool) (lastVNode : option VNode) :
  (forall (e : effect) (h : Heap),
      touches_vnode e = false \/ lastVNode <> None -> R h (recorded e h)) ->
  (forall (k : string) (v : value) (h : Heap),
      prop = "style" -> R h (styled k v h)) ->
  (forall h : Heap, R h (allocated h)) ->
  (forall (k : string) (v : value) (h : Heap),
      (has skipProps prop
       || (hasControlledValue && String.eqb prop "value") = false
       /\ (k = prop
           \/ (k = toLowerCase prop
               /\ (isAttrAnEvent prop = true \/ prop = "autoFocus"))))
      \/ k = "innerHTML" ->
      R h (written k v h)) ->
  keeps R
    (patchProp prop lastValue nextValue isSVG hasControlledValue lastVNode).
Proof.
  intros Hrecorded Hstyled Hallocated Hwritten. unfold patchProp.
  unfold handleEvent, removeAttribute, setAttribute, setAttributeNS, unmount,
    unmountAllChildren.
  compose;
    try apply keeps_getProperty; try apply keeps_read_dom;
    try (apply keeps_patchStyle; intros; apply Hstyled;
         apply String.eqb_eq; assumption);
    try (apply keeps_patchEvent; [intros; apply Hwritten|apply Hallocated]);
    try (apply keeps_setProperty; intros; apply Hwritten);
    try (apply keeps_emit; intros; apply Hrecorded);
    try (left; reflexivity); try (right; congruence);
    auto.
  all: left; split; [reflexivity|].
  all: destruct (String.eqb prop "autoFocus") eqn:Hfocus;
    [apply String.eqb_eq in Hfocus|]; auto.
Qed.

End Keeps.

(** ** What [patchProp] leaves alone *)

Lemma same_property_refl (k : string) (h : Heap) : same_property k h h.
Proof. reflexivity. Qed.

Lemma same_property_trans (k : string) (h1 h2 h3 : Heap) :
  same_property k h1 h2 -> same_property k h2 h3 -> same_property k h1 h3.
Proof. unfold same_property. congruence. Qed.

Lemma same_property_written (k k' : string) (v : value) (h : Heap) :
  k' <> k -> same_property k h (written k' v h).
Proof. intros Hother. unfold same_property. simpl. by rewrite lookup_insert_ne. Qed.

(** X12.  One call of [patchProp] writes at most the live property of the name
    itself, of the lower-cased name (for an event name and for
    [autoFocus]) or [innerHTML]: every other live property of the element
    is what it was, whatever the arguments and however the call ends. *)
Theorem patchProp_frame
    (prop : string) (lastValue nextValue : value)
    (isSVG hasControlledValue : bool) (lastVNode : option VNode)
    (k : string) (h : Heap) :
  k <> prop ->
  k <> toLowerCase prop ->
  k <> "innerHTML" ->
  properties
    (dom (snd (patchProp prop lastValue nextValue isSVG hasControlledValue
                 lastVNode h))) !! k
  = properties (dom h) !! k.
Proof.
  intros Hprop Hlower Hhtml.
  apply (keeps_patchProp (same_property k) (same_property_refl k)
           (same_property_trans k)); try reflexivity.
  intros k' v h' Hk'. apply same_property_written.
  destruct Hk' as [[_ [-> | [-> _]]] | ->]; congruence.
Qed.

Lemma keeps_controlled_value
    (prop : string) (lastValue nextValue : value)
    (isSVG : bool) (lastVNode : option VNode) :
  keeps (same_property "value")
    (patchProp prop lastValue nextValue isSVG true lastVNode).
Proof.
  apply (keeps_patchProp (same_property "value") (same_property_refl "value")
           (same_property_trans "value")); try reflexivity.
  intros k v h' Hk. apply same_property_written.
  destruct Hk as [[Hskip [-> | [-> [Hevent | ->]]]] | ->];
    try discriminate.
  - apply orb_false_iff in Hskip as [_ Hvalue]. simpl in Hvalue.
    apply String.eqb_neq in Hvalue. exact Hvalue.
  - apply event_slot_not_value. exact Hevent.
Qed.

(** X13.  On an element whose value is controlled, no call of [patchProp] writes
    the live property [value], whatever the name and the values. *)
Theorem patchProp_controlled_value_untouched
    (prop : string) (lastValue nextValue : value)
    (isSVG : bool) (lastVNode : option VNode) (h : Heap) :
  properties
    (dom (snd (patchProp prop lastValue nextValue isSVG true lastVNode h)))
    !! "value"
  = properties (dom h) !! "value".
Proof. apply keeps_controlled_value. Qed.

(** X14.  A name other than ["style"] never reaches the style store. *)
Theorem patchProp_style_untouched
    (prop : string) (lastValue nextValue : value)
    (isSVG hasControlledValue : bool) (lastVNode : option VNode) (h : Heap) :
  prop <> "style" ->
  style
    (dom (snd (patchProp prop lastValue nextValue isSVG hasControlledValue
                 lastVNode h)))
  = style (dom h).
Proof.
  intros Hstyle.
  apply (keeps_patchProp (fun h h' => style (dom h') = style (dom h)));
    try reflexivity; congruence.
Qed.

Lemma keeps_vnode_effects
    (prop : string) (lastValue nextValue : value)
    (isSVG hasControlledValue : bool) :
  keeps (same_vnode_effects touches_vnode)
    (patchProp prop lastValue nextValue isSVG hasControlledValue None).
Proof.
  apply (keeps_patchProp (same_vnode_effects touches_vnode));
    unfold same_vnode_effects; try reflexivity; try congruence.
  - intros e h' [He | Hsome]; [|congruence]. simpl.
    rewrite List.filter_app. simpl. rewrite He, app_nil_r. reflexivity.
  - intros k v h' _. simpl. rewrite List.filter_app. simpl.
    rewrite app_nil_r. reflexivity.
  - intros k v h' _. simpl. rewrite List.filter_app. simpl.
    rewrite app_nil_r. reflexivity.
Qed.

(** X15.  Without a prior virtual node, as on mount, [patchProp] releases no
    children and marks no virtual node, and hands [null] back. *)
Theorem patchProp_without_prior_vnode
    (prop : string) (lastValue nextValue : value)
    (isSVG hasControlledValue : bool) (h : Heap) :
  List.filter touches_vnode
    (effects (snd (patchProp prop lastValue nextValue isSVG hasControlledValue
                     None h)))
  = List.filter touches_vnode (effects h)
  /\ (fst (patchProp prop lastValue nextValue isSVG hasControlledValue None h)
      = Normal None
      \/ exists message : string,
           fst (patchProp prop lastValue nextValue isSVG hasControlledValue
                  None h)
           = Thrown message).
Proof.
  split.
  - apply keeps_vnode_effects.
  - unfold patchProp, bind.
    repeat match goal with
           | |- context [if ?c then _ else _] => destruct c
           | |- context [match ?m ?h0 with (_, _) => _ end] =>
               destruct (m h0) as [[?|?] ?]
           end;
      simpl; eauto.
Qed.

(** ** Failure *)

Lemma returns_getProperty (k : string) : returns (getProperty k).
Proof. intros h. unfold getProperty. eauto. Qed.

Lemma returns_emit (e : effect) : returns (emit e).
Proof. intros h. unfold emit. eauto. Qed.

Lemma returns_setProperty (k : string) (v : value) : returns (setProperty k v).
Proof. intros h. unfold setProperty, bind, update_dom, emit. simpl. eauto. Qed.

Lemma returns_setStyleProperty (k : string) (v : value) :
  returns (setStyleProperty k v).
Proof.
  intros h. unfold setStyleProperty, bind, update_dom, emit. simpl. eauto.
Qed.

Lemma returns_read_dom : returns read_dom.
Proof. intros h. unfold read_dom. eauto. Qed.

Lemma returns_member (o : value) (k : string) :
  isNullOrUndef o = false -> returns (member o k).
Proof. intros Hpresent. rewrite (member_present _ _ Hpresent). apply returns_ret. Qed.

(** Decompose a goal [returns m] along the structure of [m]. *)
Ltac compose_returns :=
  repeat
    match goal with
    | |- returns (ret _) => apply returns_ret
    | |- returns (bind _ _) => apply returns_bind; [|intros ?]
    | |- returns (if ?c then _ else _) => destruct c eqn:?
    | |- returns (match ?o with Some _ => _ | None => _ end) => destruct o
    | |- returns (getProperty _) => apply returns_getProperty
    | |- returns (emit _) => apply returns_emit
    | |- returns (setProperty _ _) => apply returns_setProperty
    | |- returns (setStyleProperty _ _) => apply returns_setStyleProperty
    | |- returns read_dom => apply returns_read_dom
    end.

(** Called as [patchProp] calls it, with a next value that is present,
    [patchStyle] always returns. *)
Lemma patchStyle_returns (lastAttrValue nextAttrValue : value) :
  isNullOrUndef nextAttrValue = false ->
  returns (patchStyle lastAttrValue nextAttrValue).
Proof.
  intros Hpresent. unfold patchStyle, for_in. compose_returns;
    try (apply returns_for_each; intros k); compose_returns;
    try (apply returns_member; try assumption).
  all: apply andb_true_iff in Heqb0 as [Hlast _].
  all: apply negb_true_iff in Hlast; exact Hlast.
Qed.

(** X16.  The source assumes that [patchStyle] is not given an absent next
    value.  When it is, with a structured previous style that has a key,
    reading the key of the absent value throws a [TypeError], before any
    write. *)
Theorem patchStyle_absent_next_throws
    (lastAttrValue nextAttrValue : value) (h : Heap) :
  isNullOrUndef nextAttrValue = true ->
  isNullOrUndef lastAttrValue = false ->
  isString lastAttrValue = false ->
  keys lastAttrValue <> [] ->
  patchStyle lastAttrValue nextAttrValue h = (Thrown "TypeError", h).
Proof.
  intros Habsent Hpresent Hobject Hkeys. unfold patchStyle, for_in.
  fold (keys lastAttrValue).
  destruct (keys lastAttrValue) as [|k ks]; [congruence|].
  rewrite Hpresent, Hobject.
  destruct nextAttrValue; try discriminate; reflexivity.
Qed.

Lemma assoc_Forall (P : value -> Prop) (ms : list (string * value)) :
  Forall (fun member => P (snd member)) ms ->
  forall k : string, mem k (map fst ms) = true -> P (assoc k ms).
Proof.
  induction 1 as [|[k0 v0] ms Hhead _ IH]; intros k; simpl; [discriminate|].
  destruct (String.eqb k k0); simpl; auto.
Qed.

(** X17.  A style whose keys all have values that are present and [===]
    themselves, applied over a previous style with the same members (the
    same object, or a copy of it), writes nothing. *)
Theorem patchStyle_unchanged
    (lastAttrValue nextAttrValue : value) (h : Heap) :
  isString nextAttrValue = false ->
  isString lastAttrValue = false ->
  isNullOrUndef lastAttrValue = false ->
  members_of lastAttrValue = members_of nextAttrValue ->
  Forall (fun member => strict_eq (snd member) (snd member) = true
                        /\ isNullOrUndef (snd member) = false)
    (members_of nextAttrValue) ->
  patchStyle lastAttrValue nextAttrValue h = (Normal tt, h).
Proof.
  intros Hobject Hobject' Hpresent' Hsame Hvalues.
  assert (Hkey : forall k : string,
            mem k (keys nextAttrValue) = true ->
            strict_eq (assoc k (members_of nextAttrValue))
              (assoc k (members_of nextAttrValue)) = true
            /\ isNullOrUndef (assoc k (members_of nextAttrValue)) = false).
  { intros k Hk.
    exact (assoc_Forall
             (fun v => strict_eq v v = true /\ isNullOrUndef v = false)
             _ Hvalues k Hk). }
  assert (Hloop : forall (c : string -> bool) (f : string -> value)
                    (ks : list string) (h0 : Heap),
            (forall k : string, mem k ks = true -> c k = false) ->
            for_each ks
              (fun k => if c k then setStyleProperty k (f k) else ret tt) h0
            = (Normal tt, h0)).
  { intros c f ks h0. induction ks as [|k ks IH]; intros Hc; [reflexivity|].
    cbn [for_each]. unfold bind at 1.
    rewrite (Hc k) by (simpl; rewrite String.eqb_refl; reflexivity).
    unfold ret at 1. apply IH. intros k' Hk'. apply Hc. simpl.
    rewrite Hk'. apply orb_true_r. }
  destruct (keys nextAttrValue) as [|k0 ks0] eqn:Hkeys.
  { unfold patchStyle, for_in. rewrite Hobject, Hobject', Hpresent', Hsame.
    fold (keys nextAttrValue). rewrite Hkeys. reflexivity. }
  assert (Hpresent : isNullOrUndef nextAttrValue = false)
    by (apply keys_present; congruence).
  rewrite <- Hkeys in *. clear Hkeys k0 ks0.
  unfold patchStyle, for_in. rewrite Hobject, Hobject', Hpresent'.
  cbn [negb andb]. rewrite Hsame. fold (keys nextAttrValue).
  assert (Hkeys' : keys lastAttrValue = keys nextAttrValue)
    by (unfold keys; rewrite Hsame; reflexivity).
  erewrite bind_normal with (h' := h) (a := tt).
  - erewrite for_each_ext_in;
      [apply (Hloop (fun k => isNullOrUndef
                                (assoc k (members_of nextAttrValue)))
                (fun _ => empty))|].
    + intros k Hk. apply Hkey, Hk.
    + intros k Hk h0. rewrite (member_own _ _ Hk). reflexivity.
  - erewrite for_each_ext_in;
      [apply (Hloop (fun k => strict_neq
                                (assoc k (members_of nextAttrValue))
                                (assoc k (members_of nextAttrValue)))
                (fun k => with_unit (has isUnitlessNumber k)
                            (assoc k (members_of nextAttrValue))))|].
    + intros k Hk. apply strict_neq_false, Hkey, Hk.
    + intros k Hk h0. rewrite (member_own _ _ Hk).
      rewrite <- Hkeys' in Hk. rewrite (member_own _ _ Hk).
      unfold bind, ret. rewrite Hsame, unit_rule_with_unit. reflexivity.
Qed.

Lemma patchProp_returns_unless
    (prop : string) (lastValue nextValue : value)
    (isSVG hasControlledValue : bool) (lastVNode : option VNode) :
  production = true \/ isAttrAnEvent prop = false ->
  returns
    (patchProp prop lastValue nextValue isSVG hasControlledValue lastVNode).
Proof.
  intros Hsafe. unfold patchProp.
  unfold handleEvent, removeAttribute, setAttribute, setAttributeNS, unmount,
    unmountAllChildren.
  compose_returns.
  - destruct Hsafe as [Hproduction | Hevent]; [|congruence].
    apply patchEvent_returns_in_production, Hproduction.
  - apply patchStyle_returns. assumption.
Qed.

(** X18.  In a production build [patchProp] never throws. *)
Theorem patchProp_returns_in_production
    (prop : string) (lastValue nextValue : value)
    (isSVG hasControlledValue : bool) (lastVNode : option VNode) (h : Heap) :
  production = true ->
  exists (result : option VNode) (h' : Heap),
    patchProp prop lastValue nextValue isSVG hasControlledValue lastVNode h
    = (Normal result, h').
Proof.
  intros Hproduction. apply patchProp_returns_unless. left. exact Hproduction.
Qed.

(** X19.  The one failure of [patchProp] is the development warning for an event
    name: when the call throws, the build is a development build, the name
    starts with [on], and nothing has been changed. *)
Theorem patchProp_failure
    (prop : string) (lastValue nextValue : value)
    (isSVG hasControlledValue : bool) (lastVNode : option VNode)
    (h h' : Heap) (message : string) :
  patchProp prop lastValue nextValue isSVG hasControlledValue lastVNode h
  = (Thrown message, h') ->
  h' = h /\ production = false /\ isAttrAnEvent prop = true.
Proof.
  intros Hthrown. split; [|split].
  - revert Hthrown. revert h h' message.
    change (atomic (patchProp prop lastValue nextValue isSVG
                      hasControlledValue lastVNode)).
    destruct (isAttrAnEvent prop) eqn:Hevent;
      [|apply returns_atomic, patchProp_returns_unless; auto].
    unfold patchProp.
    repeat match goal with
           | |- atomic (if ?c then _ else _) => destruct c eqn:?
           end;
      try discriminate;
      try (apply atomic_bind_returns;
           [apply patchEvent_atomic|intros; apply returns_ret]);
      apply returns_atomic; unfold handleEvent; compose_returns.
  - destruct production eqn:Hproduction; [|reflexivity].
    destruct (patchProp_returns_unless prop lastValue nextValue isSVG
                hasControlledValue lastVNode (or_introl Hproduction) h)
      as (result & h'' & Hrun).
    congruence.
  - destruct (isAttrAnEvent prop) eqn:Hevent; [reflexivity|].
    destruct (patchProp_returns_unless prop lastValue nextValue isSVG
                hasControlledValue lastVNode (or_intror Hevent) h)
      as (result & h'' & Hrun).
    congruence.
Qed.

(** ** Removal *)

(** X20.  [removeProp] never throws. *)
Theorem removeProp_returns
    (prop : string) (lastValue : value) (nextFlags : Z) (h : Heap) :
  exists h' : Heap, removeProp prop lastValue nextFlags h = (Normal tt, h').
Proof.
  unfold removeProp, removeAttribute, handleEvent.
  repeat match goal with
         | |- context [if ?c then _ else _] => destruct c
         end;
    try apply patchEvent_absent_returns;
    unfold setProperty, bind, update_dom, emit; simpl; eauto.
Qed.

(** X21.  Removing a handler that is not a delegated event assigns [null] to the
    lower-cased slot of the element, unless the slot holds a handler with a
    truthy [wrapped] marker, which stays. *)
Theorem removeProp_event
    (prop : string) (lastValue : value) (nextFlags : Z) (h : Heap) :
  isAttrAnEvent prop = true ->
  has delegatedEvents prop = false ->
  removeProp prop lastValue nextFlags h
  = (Normal tt,
     if truthy (default VUndefined (properties (dom h) !! toLowerCase prop))
        && truthy (assoc "wrapped"
                     (members_of
                        (default VUndefined
                           (properties (dom h) !! toLowerCase prop))))
     then h else written (toLowerCase prop) VNull h).
Proof.
  intros Hevent Hdelegated. unfold removeProp.
  apply isAttrAnEvent_prefix in Hevent as Hprefix.
  destruct Hprefix as [rest ->]. cbn [String.eqb Ascii.eqb Bool.eqb].
  change (String.eqb ("on" +:+ rest) "value") with false.
  change (String.eqb ("on" +:+ rest) "style") with false.
  cbv iota. rewrite Hdelegated, Hevent.
  apply patchEvent_plain. reflexivity.
Qed.

(** ** Raw HTML that is already there *)

(** X22.  When the next markup is [===] the previous one, or the element's
    current markup already is the next one, [patchProp] writes nothing and
    releases nothing, even if prior children are recorded. *)
Theorem patchProp_raw_html_unchanged
    (lastValue nextValue : value) (isSVG hasControlledValue : bool)
    (lastVNode : option VNode) (h : Heap) :
  has delegatedEvents "dangerouslySetInnerHTML" = false ->
  has skipProps "dangerouslySetInnerHTML" = false ->
  has booleanProps "dangerouslySetInnerHTML" = false ->
  has strictProps "dangerouslySetInnerHTML" = false ->
  isNullOrUndef nextValue = false ->
  strict_eq (html_of lastValue) (html_of nextValue)
  || isSameInnerHTML (dom h) (html_of nextValue) = true ->
  patchProp "dangerouslySetInnerHTML" lastValue nextValue isSVG
    hasControlledValue lastVNode h
  = (Normal lastVNode, h).
Proof.
  intros Hdelegated Hskip Hboolean Hstrict Hpresent Hsame.
  unfold patchProp.
  destruct (strict_neq lastValue nextValue); [|reflexivity].
  rewrite Hdelegated, Hskip, Hboolean, Hstrict, Hpresent.
  simpl. rewrite andb_false_r. simpl. unfold strict_neq.
  destruct (strict_eq (html_of lastValue) (html_of nextValue));
    [reflexivity|].
  simpl in Hsame. run. rewrite Hsame, andb_false_r. reflexivity.
Qed.

End Dispatch.

(** * Mounting *)

Section Mounting.

Context `{imports : Imports} `{mount_imports : MountImports}.

Local Open Scope string_scope.
Local Open Scope list_scope.

(** X23.  With nothing to enumerate ([null], [undefined], an object without
    members) [mountProps] applies no property: on a form element it only
    asks [isControlledFormElement] and hands its answer to
    [processElement]; on any other element it does nothing, and calls
    neither. *)
Theorem mountProps_without_props
    (vNode : VNode) (flags : Z) (props : value) (isSVG : bool) (h : Heap) :
  isString props = false ->
  keys props = [] ->
  mountProps vNode flags props isSVG h
  = if Z.ltb 0 (bitand flags VNodeFlags_FormElement)
    then bind (isControlledFormElement props)
           (fun hasControlledValue =>
              processElement flags vNode props true hasControlledValue) h
    else (Normal tt, h).
Proof.
  intros _ Hkeys. unfold mountProps, for_in. fold (keys props). rewrite Hkeys.
  destruct (Z.ltb 0 (bitand flags VNodeFlags_FormElement)); [|reflexivity].
  unfold bind. destruct (isControlledFormElement props h) as [[b|e] h0];
    reflexivity.
Qed.

(** The loop of [mountProps] keeps what [patchProp] keeps on mount. *)
Lemma mount_loop_keeps (R : Heap -> Heap -> Prop) (props : value)
    (isSVG hasControlledValue : bool) (ks : list string) :
  (forall h : Heap, R h h) ->
  (forall h1 h2 h3 : Heap, R h1 h2 -> R h2 h3 -> R h1 h3) ->
  (forall (prop : string) (next : value),
      keeps R (patchProp prop VNull next isSVG hasControlledValue None)) ->
  keeps R
    (for_each ks (fun prop =>
       bind (member props prop) (fun next =>
         bind (patchProp prop VNull next isSVG hasControlledValue None)
              (fun _ => ret tt)))).
Proof.
  intros Hrefl Htrans Hpatch. apply keeps_for_each; try assumption.
  intros k. apply keeps_bind; [assumption|apply keeps_member, Hrefl|].
  intros next. apply keeps_bind; [assumption|apply Hpatch|].
  intros _. apply keeps_ret, Hrefl.
Qed.

Lemma assoc_distinct (k : string) (v : value) (ms : list (string * value)) :
  distinct (map fst ms) = true -> In (k, v) ms -> assoc k ms = v.
Proof.
  induction ms as [|[k0 v0] ms IH]; simpl; [contradiction|].
  intros Hdistinct [Hhead | Htail].
  - injection Hhead as -> ->. rewrite String.eqb_refl. reflexivity.
  - apply andb_true_iff in Hdistinct as [Hfresh Hdistinct].
    destruct (String.eqb k k0) eqn:Hk; [|auto].
    apply String.eqb_eq in Hk. subst k0. apply negb_true_iff in Hfresh.
    assert (Hmem : mem k (map fst ms) = true).
    { clear -Htail. induction ms as [|[k1 v1] ms IH]; simpl in *;
        [contradiction|].
      destruct Htail as [Hhead | Htail].
      - injection Hhead as -> ->. rewrite String.eqb_refl. reflexivity.
      - rewrite (IH Htail). apply orb_true_r. }
    congruence.
Qed.

Lemma mem_In (k : string) (v : value) (ms : list (string * value)) :
  In (k, v) ms -> mem k (map fst ms) = true.
Proof.
  induction ms as [|[k1 v1] ms IH]; simpl; [contradiction|].
  intros [Hhead | Htail].
  - injection Hhead as -> ->. rewrite String.eqb_refl. reflexivity.
  - rewrite (IH Htail). apply orb_true_r.
Qed.

Lemma bind_ext {A B : Type} (m : M A) (f g : A -> M B) (h : Heap) :
  (forall (a : A) (h' : Heap), f a h' = g a h') -> bind m f h = bind m g h.
Proof.
  intros Hext. unfold bind. destruct (m h) as [[a|message] h1]; auto.
Qed.

Lemma bind_run {A B : Type} (m m' : M A) (f : A -> M B) (h : Heap) :
  m h = m' h -> bind m f h = bind m' f h.
Proof. unfold bind. intros ->. reflexivity. Qed.

(** The loop of [mountProps] over names that are not repeated applies the
    entries one after the other. *)
Lemma mount_loop_entries (props : value) (isSVG hasControlledValue : bool)
    (entries : list (string * value)) :
  isNullOrUndef props = false ->
  (forall (k : string) (v : value), In (k, v) entries -> lookup props k = v) ->
  forall h : Heap,
    for_each (map fst entries) (fun prop =>
      bind (member props prop) (fun next =>
        bind (patchProp prop VNull next isSVG hasControlledValue None)
             (fun _ => ret tt))) h
    = apply_entries entries isSVG hasControlledValue h.
Proof.
  intros Hpresent. induction entries as [|[k v] entries IH]; intros Hlookup h;
    [reflexivity|].
  cbn [map fst for_each apply_entries].
  rewrite (member_present _ _ Hpresent), (Hlookup k v) by (left; reflexivity).
  match goal with
  | |- bind _ (fun _ => ?loop) h = _ =>
      transitivity
        (bind (patchProp k VNull v isSVG hasControlledValue None)
           (fun _ => loop) h)
  end.
  - unfold bind, ret.
    destruct (patchProp k VNull v isSVG hasControlledValue None h)
      as [[result|message] h1]; reflexivity.
  - apply bind_ext. intros _ h1. apply IH.
    intros k' v' Hin. apply Hlookup. right. exact Hin.
Qed.

Lemma apply_entries_keeps_value (entries : list (string * value))
    (isSVG : bool) :
  keeps (same_property "value") (apply_entries entries isSVG true).
Proof.
  induction entries as [|[k v] entries IH]; cbn [apply_entries].
  - apply keeps_ret, same_property_refl.
  - apply keeps_bind;
      [apply same_property_trans|apply keeps_controlled_value|].
    intros _. exact IH.
Qed.

(** X24.  On a form element for which [isControlledFormElement] answers
    [true], [mountProps] goes on from the heap that call leaves: it applies
    the entries of the properties one after the other, each once, with
    [null] as the previous value and the controlled flag set, and then, if
    none of them has thrown, calls [processElement] with the controlled flag
    set on the element the entries leave.  The entries do not write the
    live [value]. *)
Theorem mountProps_controlled_value
    (vNode : VNode) (flags : Z) (r : nat) (entries : list (string * value))
    (isSVG : bool) (h h0 : Heap) :
  distinct (map fst entries) = true ->
  Z.ltb 0 (bitand flags VNodeFlags_FormElement) = true ->
  isControlledFormElement (VObject r entries) h = (Normal true, h0) ->
  mountProps vNode flags (VObject r entries) isSVG h
  = bind (apply_entries entries isSVG true)
      (fun _ => processElement flags vNode (VObject r entries) true true) h0
  /\ properties (dom (snd (apply_entries entries isSVG true h0))) !! "value"
     = properties (dom h0) !! "value".
Proof.
  intros Hdistinct Hform Hcontrolled. split;
    [|apply apply_entries_keeps_value].
  unfold mountProps, for_in. rewrite Hform.
  rewrite (bind_normal _ _ _ _ _ Hcontrolled). cbn [members_of].
  apply bind_run. apply mount_loop_entries; [reflexivity|].
  intros k v Hin.
  rewrite (lookup_own (VObject r entries) k (mem_In _ _ _ Hin)).
  apply assoc_distinct; assumption.
Qed.

(** X25.  On an element that is not a form element, [mountProps] releases no
    children and marks no virtual node, and in a production build it
    returns. *)
Theorem mountProps_plain_element
    (vNode : VNode) (flags : Z) (props : value) (isSVG : bool) (h : Heap) :
  isString props = false ->
  Z.ltb 0 (bitand flags VNodeFlags_FormElement) = false ->
  List.filter touches_vnode (effects (snd (mountProps vNode flags props isSVG h)))
  = List.filter touches_vnode (effects h)
  /\ (if production
      then fst (mountProps vNode flags props isSVG h) = Normal tt
      else True).
Proof.
  intros _ Hplain. unfold mountProps, for_in. rewrite Hplain.
  rewrite (bind_normal (ret false) _ h h false eq_refl). split.
  - apply (keeps_bind (same_vnode_effects touches_vnode)).
    + unfold same_vnode_effects. congruence.
    + apply mount_loop_keeps; unfold same_vnode_effects; try congruence.
      intros prop next. apply keeps_vnode_effects.
    + intros _ h0. reflexivity.
  - destruct production eqn:Hproduction; [|exact I].
    assert (Hreturns :
      returns
        (for_each (map fst (members_of props)) (fun prop =>
           bind (member props prop) (fun next =>
             bind (patchProp prop VNull next isSVG false None)
                  (fun _ => ret tt))))).
    { destruct (map fst (members_of props)) as [|k0 ks0] eqn:Hkeys;
        [apply returns_ret|].
      assert (Hpresent : isNullOrUndef props = false)
        by (apply keys_present; unfold keys; congruence).
      rewrite <- Hkeys. apply returns_for_each. intros k.
      rewrite (member_present _ _ Hpresent).
      apply returns_bind; [apply returns_ret|]. intros next.
      apply returns_bind; [|intros _; apply returns_ret].
      apply patchProp_returns_unless. left. exact Hproduction. }
    destruct (Hreturns h) as ([] & h1 & Hrun).
    rewrite (bind_normal _ _ _ _ _ Hrun). reflexivity.
Qed.

Lemma for_each_app (ks1 ks2 : list string) (body : string -> M unit) :
  forall h : Heap,
    for_each (ks1 ++ ks2) body h
    = bind (for_each ks1 body) (fun _ => for_each ks2 body) h.
Proof.
  induction ks1 as [|k ks1 IH]; intros h; [reflexivity|].
  simpl. unfold bind. destruct (body k h) as [[[]|e] h1]; [|reflexivity].
  rewrite IH. reflexivity.
Qed.

Lemma assoc_skip (k k' : string) (v : value) (ms1 ms2 : list (string * value)) :
  k' <> k -> assoc k' (ms1 ++ (k, v) :: ms2) = assoc k' (ms1 ++ ms2).
Proof.
  intros Hother. induction ms1 as [|[k1 v1] ms1 IH]; simpl.
  - apply String.eqb_neq in Hother. rewrite Hother. reflexivity.
  - rewrite IH. reflexivity.
Qed.

Lemma assoc_found (k : string) (v : value) (ms1 ms2 : list (string * value)) :
  mem k (map fst ms1) = false -> assoc k (ms1 ++ (k, v) :: ms2) = v.
Proof.
  induction ms1 as [|[k1 v1] ms1 IH]; simpl.
  - rewrite String.eqb_refl. reflexivity.
  - intros Hfresh. apply orb_false_iff in Hfresh as [-> Hfresh]. auto.
Qed.

(** X26.  On mount the previous value of every property is [null]; an entry of
    the properties whose value is [null] is therefore not applied at all.
    On an element that is not a form element, the properties with such an
    entry mount exactly as the properties without it. *)
Theorem mountProps_null_entry
    (vNode : VNode) (flags : Z) (r r' : nat) (k : string)
    (ms1 ms2 : list (string * value)) (isSVG : bool) (h : Heap) :
  Z.ltb 0 (bitand flags VNodeFlags_FormElement) = false ->
  mem k (map fst (ms1 ++ ms2)) = false ->
  mountProps vNode flags (VObject r (ms1 ++ (k, VNull) :: ms2)) isSVG h
  = mountProps vNode flags (VObject r' (ms1 ++ ms2)) isSVG h.
Proof.
  intros Hplain Hfresh. unfold mountProps, for_in. rewrite Hplain.
  rewrite !(bind_normal (ret false) _ h h false eq_refl).
  cbn [members_of]. rewrite !map_app. cbn [map fst].
  rewrite map_app in Hfresh. unfold mem in Hfresh.
  rewrite existsb_app in Hfresh. apply orb_false_iff in Hfresh as [Hfresh1 Hfresh2].
  set (body := fun prop : string =>
         bind (member (VObject r (ms1 ++ (k, VNull) :: ms2)) prop)
           (fun next => bind (patchProp prop VNull next isSVG false None)
                          (fun _ => ret tt))).
  set (body' := fun prop : string =>
         bind (member (VObject r' (ms1 ++ ms2)) prop)
           (fun next => bind (patchProp prop VNull next isSVG false None)
                          (fun _ => ret tt))).
  assert (Hbig : forall k' : string,
            mem k' (map fst ms1) || (String.eqb k' k || mem k' (map fst ms2))
            = true ->
            member (VObject r (ms1 ++ (k, VNull) :: ms2)) k'
            = ret (assoc k' (ms1 ++ (k, VNull) :: ms2))).
  { intros k' Hk'. apply member_own. unfold keys, mem. cbn [members_of].
    rewrite map_app, existsb_app. exact Hk'. }
  assert (Hsmall : forall k' : string,
            mem k' (map fst ms1) || mem k' (map fst ms2) = true ->
            member (VObject r' (ms1 ++ ms2)) k' = ret (assoc k' (ms1 ++ ms2))).
  { intros k' Hk'. apply member_own. unfold keys, mem. cbn [members_of].
    rewrite map_app, existsb_app. exact Hk'. }
  assert (Hother : forall k' : string,
            mem k' (map fst ms1) || mem k' (map fst ms2) = true ->
            forall h0 : Heap, body k' h0 = body' k' h0).
  { intros k' Hk' h0. subst body body'. cbv beta.
    rewrite Hsmall by exact Hk'.
    rewrite Hbig
      by (apply orb_true_iff in Hk' as [-> | ->];
          rewrite ?orb_true_r; reflexivity).
    rewrite assoc_skip; [reflexivity|].
    intros ->. unfold mem in Hk'. rewrite Hfresh1, Hfresh2 in Hk'.
    discriminate. }
  assert (Hloop : forall h0 : Heap,
            for_each (map fst ms1 ++ k :: map fst ms2) body h0
            = for_each (map fst ms1 ++ map fst ms2) body' h0).
  { intros h0. rewrite !for_each_app. unfold bind at 1 2.
    rewrite (for_each_ext_in (map fst ms1) body body').
    - destruct (for_each (map fst ms1) body' h0) as [[[]|e] h1];
        [|reflexivity].
      cbn [for_each]. unfold bind at 1.
      assert (Hskip : body k h1 = (Normal tt, h1)).
      { subst body. cbv beta.
        rewrite Hbig by (rewrite String.eqb_refl, orb_true_r; reflexivity).
        unfold bind at 1, ret at 1. rewrite (assoc_found _ _ _ _ Hfresh1).
        reflexivity. }
      rewrite Hskip. apply for_each_ext_in. intros k' Hk' h2.
      apply Hother. rewrite Hk'. apply orb_true_r.
    - intros k' Hk' h2. apply Hother. rewrite Hk'. reflexivity. }
  unfold bind at 1 2. rewrite Hloop. reflexivity.
Qed.

End Mounting.

(** * The statements at concrete inputs *)

Local Open Scope string_scope.
Local Open Scope list_scope.

#[local] Existing Instance Sample.imports.

(** ** Instances of the theorems *)

Lemma patchProp_same_reference_witness :
  strict_eq (VString "a") (VString "a") = true
  /\ patchProp "title" (VString "a") (VString "a") false false None Sample.blank
     = (Normal None, Sample.blank).
Proof.
  split; [reflexivity|].
  apply (patchProp_same_reference "title" (VString "a") (VString "a")).
  reflexivity.
Defined.

Lemma patchEvent_keeps_wrapped_witness :
  let wrapper := VFunction 3 [("wrapped", VBoolean true)] in
  let h := Sample.with_property "oninput" wrapper Sample.blank in
  patchEvent "onInput" VNull (VFunction 4 []) h = (Normal tt, h).
Proof.
  intros wrapper h.
  apply (patchEvent_keeps_wrapped "onInput" VNull (VFunction 4 []) wrapper h);
    vm_compute; reflexivity.
Defined.

Lemma patchEvent_linked_event_witness :
  let handler := VFunction 2 [] in
  let linked := VObject 1 [("data", VNumber 5); ("event", handler)] in
  exists (listener : value) (h' : Heap),
    patchEvent "onInput" VNull linked Sample.blank = (Normal tt, h')
    /\ properties (dom h') !! "oninput" = Some listener
    /\ call_listener listener (VString "e")
       = Some [Call handler [VNumber 5; VString "e"]].
Proof.
  intros handler linked.
  apply (patchEvent_linked_event "onInput" VNull linked handler (VNumber 5)
           (VString "e") Sample.blank); reflexivity.
Defined.

Lemma patchProp_boolean_witness :
  exists h' : Heap,
    patchProp "autoFocus" VNull (VNumber 1) false false None Sample.blank
    = (Normal None, h')
    /\ properties (dom h') !! "autofocus" = Some (VBoolean true)
    /\ effects h' = [SetProperty "autofocus" (VBoolean true)].
Proof.
  apply (patchProp_boolean "autoFocus" VNull (VNumber 1) false false None
           Sample.blank); vm_compute; reflexivity.
Defined.

Lemma patchProp_strict_twice_witness :
  exists h1 : Heap,
    patchProp "volume" VNull (VNumber 1) false false None Sample.blank
    = (Normal None, h1)
    /\ patchProp "volume" VNull (VNumber 1) false false None h1
       = (Normal None, h1)
    /\ patchProp_twice "volume" VNull VNull (VNumber 1) false false None
         Sample.blank
       = (Normal None, h1)
    /\ effects h1 = [SetProperty "volume" (VNumber 1)]
    /\ properties (dom h1) !! "volume" = Some (VNumber 1).
Proof.
  apply (patchProp_strict_twice "volume" VNull VNull (VNumber 1) false false
           None Sample.blank); vm_compute; reflexivity.
Defined.

Lemma patchProp_raw_html_releases_first_witness :
  let child := VObject 9 [] in
  exists h' : Heap,
    patchProp "dangerouslySetInnerHTML"
      (VObject 1 [("__html", VString "<p>a</p>")])
      (VObject 2 [("__html", VString "<p>b</p>")])
      false false (Some {| childFlags := 2; children := child |})
      Sample.blank
    = (Normal (Some {| childFlags := 1; children := VNull |}), h')
    /\ effects h'
       = [Unmount child; SetChildren VNull; SetChildFlags 1;
          SetProperty "innerHTML" (VString "<p>b</p>")]
    /\ properties (dom h') !! "innerHTML" = Some (VString "<p>b</p>").
Proof.
  intros child.
  refine (patchProp_raw_html_releases_first
            (VObject 1 [("__html", VString "<p>a</p>")])
            (VObject 2 [("__html", VString "<p>b</p>")])
            false false {| childFlags := 2; children := child |} Sample.blank
            _ _ _ _ _ _ _ _);
    vm_compute; reflexivity.
Defined.

Lemma removeProp_as_patchProp_null_witness :
  exists h' : Heap,
    removeProp "onClick" (VFunction 4 []) 0 Sample.blank = (Normal tt, h')
    /\ patchProp "onClick" (VFunction 4 []) VNull false false None Sample.blank
       = (Normal None, h')
    /\ dom h' = dom Sample.blank
    /\ effects h' = [HandleEvent "onClick" VNull].
Proof.
  refine (removeProp_as_patchProp_null "onClick" (VFunction 4 []) 0 false
            false None Sample.blank _ _ _ _).
  - reflexivity.
  - discriminate.
  - discriminate.
  - left. split; [vm_compute; reflexivity|discriminate].
Defined.

Lemma patchStyle_unit_rule_witness :
  exists (clears : list effect) (h' : Heap),
    patchStyle (VObject 1 [("width", VNumber 10); ("color", VString "red")])
      (VObject 2 [("width", VNumber 12); ("zIndex", VNumber 2);
                  ("opacity", VOtherNumber "0.5")]) Sample.blank
    = (Normal tt, h')
    /\ effects h'
       = [SetStyleProperty "width" (VString "12px");
          SetStyleProperty "zIndex" (VNumber 2);
          SetStyleProperty "opacity" (VOtherNumber "0.5")] ++ clears
    /\ Forall is_clear clears.
Proof.
  destruct (patchStyle_unit_rule
              (VObject 1 [("width", VNumber 10); ("color", VString "red")]) 2
              [("width", VNumber 12); ("zIndex", VNumber 2);
               ("opacity", VOtherNumber "0.5")] Sample.blank eq_refl)
    as (clears & h' & Hrun & Heffects & Hclears & _).
  exists clears, h'. split; [exact Hrun|]. split; [exact Heffects|].
  exact Hclears.
Defined.

(** ** Inputs at which a claim of the specification fails *)

(** C1.  Removing the raw-HTML property clears [textContent]; updating it
    to [null] removes an attribute of that name instead. *)
Lemma removeProp_patchProp_null_counterexample :
  let payload := VObject 1 [("__html", VString "<p>a</p>")] in
  effects (snd (removeProp "dangerouslySetInnerHTML" payload 0 Sample.blank))
  = [SetProperty "textContent" (VString EmptyString)]
  /\ effects (snd (patchProp "dangerouslySetInnerHTML" payload VNull false
                     false None Sample.blank))
     = [RemoveAttribute "dangerouslySetInnerHTML"]
  /\ snd (removeProp "dangerouslySetInnerHTML" payload 0 Sample.blank)
     <> snd (patchProp "dangerouslySetInnerHTML" payload VNull false false
               None Sample.blank).
Proof.
  intros payload. split; [vm_compute; reflexivity|].
  split; [vm_compute; reflexivity|].
  intros Hsame. apply (f_equal effects) in Hsame. vm_compute in Hsame.
  discriminate.
Qed.

(** C2.  With a previous value that is the next value, the boolean property
    is not written: [disabled] stays [false] although [!!true] is [true]. *)
Lemma patchProp_boolean_counterexample :
  let h := Sample.with_property "disabled" (VBoolean false) Sample.blank in
  let h' := snd (patchProp "disabled" (VBoolean true) (VBoolean true) false
                   false None h) in
  has booleanProps "disabled" = true
  /\ properties (dom h') !! "disabled" = Some (VBoolean false)
  /\ properties (dom h') !! "disabled"
     <> Some (VBoolean (truthy (VBoolean true))).
Proof.
  intros h h'. split; [vm_compute; reflexivity|].
  split; [vm_compute; reflexivity|].
  intros Hlive. vm_compute in Hlive. discriminate.
Qed.

(** C3.  On an element whose [volume] is already [1], two applications
    with the next value [1] write nothing at all. *)
Lemma patchProp_strict_twice_counterexample :
  let h := Sample.with_property "volume" (VNumber 1) Sample.blank in
  let h2 := snd (patchProp_twice "volume" VNull VNull (VNumber 1) false false
                   None h) in
  has strictProps "volume" = true
  /\ property_writes (effects h2) = 0%nat
  /\ property_writes (effects h2) <> 1%nat.
Proof.
  intros h h2. split; [vm_compute; reflexivity|].
  split; [vm_compute; reflexivity|].
  intros Hone. vm_compute in Hone. discriminate.
Qed.

(** ** Instances of the further properties *)

Lemma patchProp_delegated_witness :
  patchProp "onClick" VNull (VFunction 4 []) false true None Sample.blank
  = (Normal None, recorded (HandleEvent "onClick" (VFunction 4 [])) Sample.blank).
Proof.
  apply (patchProp_delegated "onClick" VNull (VFunction 4 []) false true None
           Sample.blank); vm_compute; reflexivity.
Defined.

Lemma patchProp_skipped_witness :
  patchProp "value" VNull (VString "a") false true None Sample.blank
  = (Normal None, Sample.blank).
Proof.
  apply (patchProp_skipped "value" VNull (VString "a") false true None
           Sample.blank); vm_compute; reflexivity.
Defined.

Lemma patchProp_absent_removes_attribute_witness :
  patchProp "style" (VObject 1 [("color", VString "red")]) VUndefined false
    false None Sample.blank
  = (Normal None, recorded (RemoveAttribute "style") Sample.blank).
Proof.
  apply (patchProp_absent_removes_attribute "style"
           (VObject 1 [("color", VString "red")]) VUndefined false false None
           Sample.blank); vm_compute; reflexivity.
Defined.

Lemma patchProp_attribute_witness :
  patchProp "xlink:href" VNull (VString "#a") true false None Sample.blank
  = (Normal None,
     recorded (SetAttributeNS "http://www.w3.org/1999/xlink" "xlink:href"
                 (VString "#a")) Sample.blank).
Proof.
  refine (patchProp_attribute "xlink:href" VNull (VString "#a") true false
            None Sample.blank _ _ _ _ _ _ _ _ _);
    try discriminate; vm_compute; reflexivity.
Defined.

Lemma patchEvent_installs_witness :
  patchEvent "onInput" (VFunction 4 []) VNull
    (Sample.with_property "oninput" (VFunction 4 []) Sample.blank)
  = (Normal tt,
     written "oninput" VNull
       (Sample.with_property "oninput" (VFunction 4 []) Sample.blank)).
Proof.
  apply (patchEvent_installs "onInput" (VFunction 4 []) VNull
           (Sample.with_property "oninput" (VFunction 4 []) Sample.blank));
    vm_compute; reflexivity.
Defined.

Lemma patchEvent_invalid_witness :
  exists message : string,
    patchEvent "onInput" VNull (VString "go()") Sample.blank
    = (Thrown message, Sample.blank).
Proof.
  eexists.
  refine (patchEvent_invalid "onInput" VNull (VString "go()") Sample.blank
            _ _ _); reflexivity.
Defined.

Lemma patchEvent_frame_witness :
  let h := Sample.with_property "title" (VString "t") Sample.blank in
  properties (dom (snd (patchEvent "onInput" VNull (VFunction 4 []) h)))
    !! "title"
  = properties (dom h) !! "title"
  /\ style (dom (snd (patchEvent "onInput" VNull (VFunction 4 []) h)))
     = style (dom h).
Proof.
  intros h.
  apply (patchEvent_frame "onInput" VNull (VFunction 4 []) "title" h).
  discriminate.
Defined.

Lemma patchEvent_linked_event_renewed_witness :
  let linked := VObject 1 [("data", VNumber 5); ("event", VFunction 2 [])] in
  exists (first second : value) (h1 h2 : Heap),
    patchEvent "onInput" VNull linked Sample.blank = (Normal tt, h1)
    /\ patchEvent "onInput" linked linked h1 = (Normal tt, h2)
    /\ effects h2
       = effects Sample.blank ++ [SetProperty (toLowerCase "onInput") first;
                                  SetProperty (toLowerCase "onInput") second]
    /\ properties (dom h2) !! toLowerCase "onInput" = Some second
    /\ strict_eq first second = false.
Proof.
  intros linked.
  apply (patchEvent_linked_event_renewed "onInput" VNull linked linked
           Sample.blank); reflexivity.
Defined.

Lemma patchStyle_from_scratch_witness :
  exists h' : Heap,
    patchStyle VNull
      (VObject 1 [("zIndex", VNumber 10); ("width", VNumber 10)]) Sample.blank
    = (Normal tt, h')
    /\ effects h'
       = [SetStyleProperty "zIndex" (VNumber 10);
          SetStyleProperty "width" (VString "10px")]
    /\ style (dom h') !! "width" = Some (VString "10px").
Proof.
  destruct (patchStyle_from_scratch VNull
              (VObject 1 [("zIndex", VNumber 10); ("width", VNumber 10)])
              Sample.blank eq_refl eq_refl)
    as (h' & Hrun & Heffects & _ & Hstyle).
  exists h'. split; [exact Hrun|]. split; [exact Heffects|].
  exact (Hstyle "width").
Defined.

Lemma patchStyle_structured_witness :
  exists h' : Heap,
    patchStyle
      (VObject 1 [("width", VNumber 10); ("color", VString "red")])
      (VObject 2 [("width", VNumber 12); ("color", VNull)]) Sample.blank
    = (Normal tt, h')
    /\ effects h'
       = [SetStyleProperty "width" (VString "12px");
          SetStyleProperty "color" VNull;
          SetStyleProperty "color" (VString EmptyString)]
    /\ style (dom h') !! "color" = Some (VString EmptyString).
Proof.
  destruct (patchStyle_structured 1 2
              [("width", VNumber 10); ("color", VString "red")]
              [("width", VNumber 12); ("color", VNull)] Sample.blank)
    as (h' & Hrun & Heffects & _ & Hstyle).
  exists h'. split; [exact Hrun|]. split; [exact Heffects|].
  exact (Hstyle "color").
Defined.

Lemma patchStyle_unchanged_witness :
  patchStyle (VObject 1 [("width", VNumber 10); ("color", VString "red")])
    (VObject 2 [("width", VNumber 10); ("color", VString "red")]) Sample.blank
  = (Normal tt, Sample.blank).
Proof.
  apply (patchStyle_unchanged
           (VObject 1 [("width", VNumber 10); ("color", VString "red")])
           (VObject 2 [("width", VNumber 10); ("color", VString "red")])
           Sample.blank); try reflexivity.
  repeat constructor.
Defined.

Lemma patchStyle_absent_next_throws_witness :
  patchStyle (VObject 1 [("color", VString "red")]) VNull Sample.blank
  = (Thrown "TypeError", Sample.blank).
Proof.
  apply (patchStyle_absent_next_throws (VObject 1 [("color", VString "red")])
           VNull Sample.blank); try reflexivity.
  discriminate.
Defined.

Lemma patchProp_frame_witness :
  let h := Sample.with_property "title" (VString "t") Sample.blank in
  properties
    (dom (snd (patchProp "disabled" VNull (VBoolean true) false false None h)))
    !! "title"
  = properties (dom h) !! "title".
Proof.
  intros h.
  apply (patchProp_frame "disabled" VNull (VBoolean true) false false None
           "title" h); discriminate.
Defined.

Lemma patchProp_style_untouched_witness :
  style
    (dom (snd (patchProp "disabled" VNull (VBoolean true) false false None
                 Sample.blank)))
  = style (dom Sample.blank).
Proof.
  apply (patchProp_style_untouched "disabled" VNull (VBoolean true) false
           false None Sample.blank).
  discriminate.
Defined.

Lemma patchProp_returns_in_production_witness :
  exists (result : option VNode) (h' : Heap),
    @patchProp SampleMount.production_imports "onInput" VNull (VString "go()")
      false false None Sample.blank
    = (Normal result, h').
Proof.
  apply (@patchProp_returns_in_production SampleMount.production_imports
           "onInput" VNull (VString "go()") false false None Sample.blank).
  reflexivity.
Defined.

Lemma patchProp_failure_witness :
  Sample.blank = Sample.blank
  /\ production = false
  /\ isAttrAnEvent "onInput" = true.
Proof.
  refine (patchProp_failure "onInput" VNull (VString "go()") false false None
            Sample.blank Sample.blank _ _).
  vm_compute. reflexivity.
Defined.

Lemma removeProp_event_witness :
  removeProp "onInput" (VFunction 4 []) 0
    (Sample.with_property "oninput" (VFunction 4 []) Sample.blank)
  = (Normal tt,
     written "oninput" VNull
       (Sample.with_property "oninput" (VFunction 4 []) Sample.blank)).
Proof.
  refine (removeProp_event "onInput" (VFunction 4 []) 0
            (Sample.with_property "oninput" (VFunction 4 []) Sample.blank)
            _ _); vm_compute; reflexivity.
Defined.

Lemma patchProp_raw_html_unchanged_witness :
  let vnode := Some {| childFlags := 2; children := VObject 9 [] |} in
  let h := Sample.with_property "innerHTML" (VString "<p>b</p>") Sample.blank in
  patchProp "dangerouslySetInnerHTML"
    (VObject 1 [("__html", VString "<p>a</p>")])
    (VObject 2 [("__html", VString "<p>b</p>")]) false false vnode h
  = (Normal vnode, h).
Proof.
  intros vnode h.
  apply (patchProp_raw_html_unchanged
           (VObject 1 [("__html", VString "<p>a</p>")])
           (VObject 2 [("__html", VString "<p>b</p>")]) false false vnode h);
    vm_compute; reflexivity.
Defined.

#[local] Existing Instance SampleMount.mount_imports.

Lemma mountProps_without_props_witness :
  mountProps SampleMount.vnode 1 VNull false Sample.blank
  = (Normal tt, Sample.blank).
Proof.
  refine (mountProps_without_props SampleMount.vnode 1 VNull false
            Sample.blank _ _);
    reflexivity.
Defined.

Lemma mountProps_controlled_value_witness :
  let entries := [("value", VString "a"); ("title", VString "t")] in
  mountProps SampleMount.vnode 64 (VObject 1 entries) false Sample.blank
  = bind (apply_entries entries false true)
      (fun _ => processElement 64 SampleMount.vnode (VObject 1 entries) true
                  true) Sample.blank
  /\ properties
       (dom (snd (apply_entries entries false true Sample.blank))) !! "value"
     = properties (dom Sample.blank) !! "value".
Proof.
  intros entries.
  apply (mountProps_controlled_value SampleMount.vnode 64 1 entries false
           Sample.blank Sample.blank); vm_compute; reflexivity.
Defined.

Lemma mountProps_plain_element_witness :
  let props := VObject 1 [("title", VString "t")] in
  List.filter touches_vnode
    (effects (snd (mountProps SampleMount.vnode 1 props false Sample.blank)))
  = List.filter touches_vnode (effects Sample.blank)
  /\ (if production
      then fst (mountProps SampleMount.vnode 1 props false Sample.blank)
           = Normal tt
      else True).
Proof.
  intros props.
  apply (mountProps_plain_element SampleMount.vnode 1 props false Sample.blank);
    vm_compute; reflexivity.
Defined.

Lemma mountProps_null_entry_witness :
  mountProps SampleMount.vnode 1
    (VObject 1 ([("title", VString "t")] ++ ("id", VNull) :: [])) false
    Sample.blank
  = mountProps SampleMount.vnode 1 (VObject 2 ([("title", VString "t")] ++ []))
      false Sample.blank.
Proof.
  apply (mountProps_null_entry SampleMount.vnode 1 1 2 "id"
           [("title", VString "t")] [] false Sample.blank);
    vm_compute; reflexivity.
Defined.
